(** * Strength Prescriptor: store, derived metrics and page scripts

    A shallow embedding of [streamlit_strength_only.py]: the SQLAlchemy
    models become records, the SQLite store a record of tables, every
    query a list function, and each Streamlit page a script in a small
    state-and-exception monad that threads the store, the browser
    session and the rendered screen. *)

From Stdlib Require Import ZArith List String Floats Bool Lia.
From Stdlib Require Import Sorting.Sorted Sorting.Permutation.
Import ListNotations.

#[local] Open Scope string_scope.
#[local] Open Scope list_scope.
#[local] Open Scope Z_scope.

(** ** Python values *)

Module Py.

(** [float(n)] and the implicit conversion of an [int] operand next to
    a [float]: the nearest binary64 value, ties to even. *)
Definition float_of_int (n : Z) : float :=
  SF2Prim (binary_normalize prec emax n 0 false).

(** Truth value of a float: [x != 0.0].  Both zeros are false, NaN is
    true. *)
Definition truthy_float (x : float) : bool := negb (x =? 0)%float.

(** [x or 0] on a nullable integer column. *)
Definition int_or (x : option Z) (d : Z) : Z :=
  match x with
  | Some v => if v =? 0 then d else v
  | None => d
  end.

(** [x or 0.0] on a nullable float column. *)
Definition float_or (x : option float) (d : float) : float :=
  match x with
  | Some v => if truthy_float v then v else d
  | None => d
  end.

(** Truth value of [Optional[float]] as tested by [if x]. *)
Definition truthy_opt_float (x : option float) : bool :=
  match x with
  | Some v => truthy_float v
  | None => false
  end.

(** Truth value of a nullable text column. *)
Definition truthy_opt_str (x : option string) : bool :=
  match x with
  | Some s => negb (String.eqb s "")
  | None => false
  end.

(** Quotient of [a / b] rounded to the nearest integer, ties to even
    ([0 <= a], [0 < b]). *)
Definition div_half_even (a b : Z) : Z :=
  let q := a / b in
  match 2 * (a mod b) ?= b with
  | Lt => q
  | Gt => q + 1
  | Eq => if Z.even q then q else q + 1
  end.

(** [round(x, 1)]: the exact value of [x] is rounded to one decimal,
    ties to even, and the decimal is read back as the nearest float;
    the sign survives a result of zero, NaN and the infinities round
    to themselves. *)
Definition round1 (x : float) : float :=
  match Prim2SF x with
  | S754_finite s m e =>
      let n := if 0 <=? e then 10 * Zpos m * 2 ^ e
               else div_half_even (10 * Zpos m) (2 ^ (- e)) in
      match n with
      | Zpos p =>
          SF2Prim (SFdiv prec emax (S754_finite s p 0) (S754_finite false 10 0))
      | _ => SF2Prim (S754_zero s)
      end
  | _ => x
  end.


(** Sum of a list of floats accumulated from [0.0], left to right. *)
Definition fsum (l : list float) : float :=
  fold_left PrimFloat.add l 0%float.

(** [str(x)] of a nullable text value inside an f-string. *)
Definition str_opt (x : option string) : string :=
  match x with
  | Some s => s
  | None => "None"
  end.

(** A dict built by a comprehension from [(key, value)] pairs: a later
    pair replaces the value of an earlier equal key, which keeps its
    position. *)
Section Dict.
Context {K V : Type} (eqb : K -> K -> bool).

Fixpoint dict_set (k : K) (v : V) (d : list (K * V)) : list (K * V) :=
  match d with
  | [] => [(k, v)]
  | (k', v') :: d' =>
      if eqb k k' then (k', v) :: d' else (k', v') :: dict_set k v d'
  end.

Definition dict_of (kvs : list (K * V)) : list (K * V) :=
  fold_left (fun d kv => dict_set (fst kv) (snd kv) d) kvs [].

(** [d[k]]; [None] stands for [KeyError]. *)
Fixpoint dict_get (k : K) (d : list (K * V)) : option V :=
  match d with
  | [] => None
  | (k', v) :: d' => if eqb k k' then Some v else dict_get k d'
  end.

Definition dict_keys (d : list (K * V)) : list K := map fst d.
End Dict.

End Py.

(** ** Models

    One record per SQLAlchemy model.  A column declared [nullable=False]
    or [primary_key=True] holds a value, every other column an [option]
    ([None] is SQL NULL).  A [Date] is the proleptic ordinal of the day,
    a [DateTime] a count of microseconds, a [Float] a binary64 value. *)

Module User.
Record t := mk {
  id : Z;
  email : string;
  name : string;
  role : option string;
  hash : string;
  created_at : option Z
}.
End User.

Module Client.
Record t := mk {
  id : Z;
  user_id : option Z;
  sex : option string;
  dob : option Z;
  height_cm : option float;
  weight_kg : option float;
  notes : option string;
  owner_id : option Z
}.
End Client.

Module Exercise.
Record t := mk {
  id : Z;
  name : option string;
  category : option string;
  equipment : option string;
  unilateral : option bool;
  description : option string
}.
End Exercise.

Module TrainingPlan.
Record t := mk {
  id : Z;
  client_id : option Z;
  name : option string;
  start_date : option Z;
  end_date : option Z;
  goal : option string
}.
End TrainingPlan.

Module TrainingSession.
Record t := mk {
  id : Z;
  plan_id : option Z;
  date : option Z;
  focus : option string;
  notes : option string
}.
End TrainingSession.

Module SetPrescription.
Record t := mk {
  id : Z;
  session_id : option Z;
  exercise_id : option Z;
  sets : option Z;
  reps : option Z;
  intensity_pct_1rm : option float;
  load_kg : option float;
  rest_sec : option Z;
  notes : option string
}.
End SetPrescription.

Module StrengthTest.
Record t := mk {
  id : Z;
  client_id : option Z;
  exercise_id : option Z;
  date : option Z;
  one_rm_kg : option float;
  notes : option string
}.
End StrengthTest.

(** ** The store

    The SQLite file behind [engine]: one list of rows per table of
    [Base.metadata], in rowid order (the order of a query without
    [order_by]). *)

Record DB := mkDB {
  users : list User.t;
  clients : list Client.t;
  exercises : list Exercise.t;
  training_plans : list TrainingPlan.t;
  training_sessions : list TrainingSession.t;
  set_prescriptions : list SetPrescription.t;
  strength_tests : list StrengthTest.t
}.

(** [Base.metadata.drop_all(engine)] followed by
    [Base.metadata.create_all(engine)]: every table exists and is empty. *)
Definition empty_db : DB := mkDB [] [] [] [] [] [] [].

Definition drop_all (_ : DB) : DB := empty_db.
Definition create_all (db : DB) : DB := db.

(** The rowid SQLite gives to a new row of an [INTEGER PRIMARY KEY]
    table: one more than the largest in use, 1 in an empty table. *)
Definition next_id (ids : list Z) : Z :=
  match ids with
  | [] => 1
  | i :: l => fold_left Z.max l i + 1
  end.

Definition opt_eqb {A} (eqb : A -> A -> bool) (x y : option A) : bool :=
  match x, y with
  | Some a, Some b => eqb a b
  | None, None => true
  | _, _ => false
  end.

(** [column == v] where [v] is a Python value that may be [None]
    (SQLAlchemy then emits [IS NULL]). *)
Definition col_is (c v : option Z) : bool := opt_eqb Z.eqb c v.

(** [column == v] for a Python [int]; a NULL column never matches. *)
Definition col_eq (c : option Z) (v : Z) : bool := col_is c (Some v).

(** Order of two nullable dates under [ORDER BY]: NULL sorts below every
    date. *)
Definition date_le (a b : option Z) : bool :=
  match a, b with
  | None, _ => true
  | Some _, None => false
  | Some x, Some y => x <=? y
  end.

Section OrderBy.
Context {A : Type} (key : A -> option Z).

(** [before a b]: may row [a] stand in front of row [b]. *)
Variable before : option Z -> option Z -> bool.

Fixpoint place (x : A) (l : list A) : list A :=
  match l with
  | [] => [x]
  | y :: l' => if before (key x) (key y) then x :: l else y :: place x l'
  end.

(** A stable sort: rows with equal keys keep their rowid order. *)
Fixpoint order_by (l : list A) : list A :=
  match l with
  | [] => []
  | x :: l' => place x (order_by l')
  end.
End OrderBy.

(** [order_by(col)] and [order_by(col.desc())]. *)
Definition order_by_asc {A} (key : A -> option Z) : list A -> list A :=
  order_by key (fun a b => date_le a b).
Definition order_by_desc {A} (key : A -> option Z) : list A -> list A :=
  order_by key (fun a b => date_le b a).

(** [query.limit(n).all()] and [query.first()]. *)
Definition limit {A} (n : nat) (l : list A) : list A := firstn n l.
Definition first {A} (l : list A) : option A := hd_error l.

(** [query(Model).get(pk)]; a [None] key finds nothing. *)
Definition get_by {A} (id : A -> Z) (rows : list A) (pk : option Z) : option A :=
  match pk with
  | Some k => find (fun r => id r =? k) rows
  | None => None
  end.

(** *** Inserts

    [session.add(row); session.commit()].  The row is built from the
    fresh primary key.  Only the UNIQUE constraints can refuse a row:
    the connection is opened by [create_engine] alone, nothing in the
    program turns SQLite's foreign-key enforcement on, so a [ForeignKey]
    column accepts any integer. *)

Definition with_users (db : DB) (l : list User.t) : DB :=
  mkDB l db.(clients) db.(exercises) db.(training_plans)
       db.(training_sessions) db.(set_prescriptions) db.(strength_tests).
Definition with_clients (db : DB) (l : list Client.t) : DB :=
  mkDB db.(users) l db.(exercises) db.(training_plans)
       db.(training_sessions) db.(set_prescriptions) db.(strength_tests).
Definition with_exercises (db : DB) (l : list Exercise.t) : DB :=
  mkDB db.(users) db.(clients) l db.(training_plans)
       db.(training_sessions) db.(set_prescriptions) db.(strength_tests).
Definition with_training_plans (db : DB) (l : list TrainingPlan.t) : DB :=
  mkDB db.(users) db.(clients) db.(exercises) l
       db.(training_sessions) db.(set_prescriptions) db.(strength_tests).
Definition with_training_sessions (db : DB) (l : list TrainingSession.t) : DB :=
  mkDB db.(users) db.(clients) db.(exercises) db.(training_plans)
       l db.(set_prescriptions) db.(strength_tests).
Definition with_set_prescriptions (db : DB) (l : list SetPrescription.t) : DB :=
  mkDB db.(users) db.(clients) db.(exercises) db.(training_plans)
       db.(training_sessions) l db.(strength_tests).
Definition with_strength_tests (db : DB) (l : list StrengthTest.t) : DB :=
  mkDB db.(users) db.(clients) db.(exercises) db.(training_plans)
       db.(training_sessions) db.(set_prescriptions) l.

(** [None] is the [IntegrityError] of a violated UNIQUE constraint. *)
Definition insert_user (db : DB) (row : Z -> User.t) : option (DB * User.t) :=
  let u := row (next_id (map User.id db.(users))) in
  if existsb (fun v => String.eqb (User.email v) (User.email u)) db.(users)
  then None
  else Some (with_users db (db.(users) ++ [u]), u).

Definition insert_exercise (db : DB) (row : Z -> Exercise.t)
  : option (DB * Exercise.t) :=
  let e := row (next_id (map Exercise.id db.(exercises))) in
  if existsb (fun v => match Exercise.name v, Exercise.name e with
                       | Some a, Some b => String.eqb a b
                       | _, _ => false
                       end) db.(exercises)
  then None
  else Some (with_exercises db (db.(exercises) ++ [e]), e).

Definition insert_client (db : DB) (row : Z -> Client.t) : DB * Client.t :=
  let c := row (next_id (map Client.id db.(clients))) in
  (with_clients db (db.(clients) ++ [c]), c).

Definition insert_training_plan (db : DB) (row : Z -> TrainingPlan.t)
  : DB * TrainingPlan.t :=
  let p := row (next_id (map TrainingPlan.id db.(training_plans))) in
  (with_training_plans db (db.(training_plans) ++ [p]), p).

Definition insert_training_session (db : DB) (row : Z -> TrainingSession.t)
  : DB * TrainingSession.t :=
  let s := row (next_id (map TrainingSession.id db.(training_sessions))) in
  (with_training_sessions db (db.(training_sessions) ++ [s]), s).

Definition insert_set_prescription (db : DB) (row : Z -> SetPrescription.t)
  : DB * SetPrescription.t :=
  let sp := row (next_id (map SetPrescription.id db.(set_prescriptions))) in
  (with_set_prescriptions db (db.(set_prescriptions) ++ [sp]), sp).

Definition insert_strength_test (db : DB) (row : Z -> StrengthTest.t)
  : DB * StrengthTest.t :=
  let t := row (next_id (map StrengthTest.id db.(strength_tests))) in
  (with_strength_tests db (db.(strength_tests) ++ [t]), t).

(** ** Derived metrics *)

(** [(sp.sets or 0) * (sp.reps or 0) * (sp.load_kg or 0.0)]: the integer
    product is converted once, then multiplied by the load. *)
Definition tonnage (sets reps : option Z) (load_kg : option float) : float :=
  (Py.float_of_int (Py.int_or sets 0 * Py.int_or reps 0)
   * Py.float_or load_kg 0)%float.

Definition set_tonnage (sp : SetPrescription.t) : float :=
  tonnage (SetPrescription.sets sp) (SetPrescription.reps sp)
          (SetPrescription.load_kg sp).

(** [round((pct / 100.0) * one_rm_input, 1)] with [pct] the integer of
    the slider. *)
Definition suggested_load (pct : Z) (one_rm_input : float) : float :=
  Py.round1 (Py.float_of_int pct / 100 * one_rm_input)%float.

(** [float(latest_1rm) if latest_1rm else 100.0]: the value the 1RM
    field starts with. *)
Definition one_rm_default (latest_1rm : option float) : float :=
  match latest_1rm with
  | Some v => if Py.truthy_float v then v else 100%float
  | None => 100%float
  end.

(** The query of [get_latest_one_rm] and its result
    [test.one_rm_kg if test else None]. *)
Definition latest_test (db : DB) (client_id : option Z) (exercise_id : Z)
  : option StrengthTest.t :=
  first (order_by_desc StrengthTest.date
           (filter (fun t => col_is (StrengthTest.client_id t) client_id
                             && col_eq (StrengthTest.exercise_id t) exercise_id)
                   db.(strength_tests))).

Definition get_latest_one_rm (db : DB) (client_id : option Z) (exercise_id : Z)
  : option float :=
  match latest_test db client_id exercise_id with
  | Some test => StrengthTest.one_rm_kg test
  | None => None
  end.

Definition get_client_id_from_plan (pl : TrainingPlan.t) : option Z :=
  TrainingPlan.client_id pl.

(** The rows of "Histórico recientes" for one client. *)
Definition recent_tests (db : DB) (client_id : Z) : list StrengthTest.t :=
  limit 20 (order_by_desc StrengthTest.date
              (filter (fun t => col_eq (StrengthTest.client_id t) client_id)
                      db.(strength_tests))).

(** The sessions listed for one plan, by date. *)
Definition sessions_of_plan (db : DB) (plan_id : Z) : list TrainingSession.t :=
  order_by_asc TrainingSession.date
    (filter (fun s => col_eq (TrainingSession.plan_id s) plan_id)
            db.(training_sessions)).

(** The rows summed for one session. *)
Definition sets_of_session (db : DB) (session_id : Z) : list SetPrescription.t :=
  filter (fun sp => col_eq (SetPrescription.session_id sp) session_id)
         db.(set_prescriptions).

(** ** Script runs

    Streamlit re-runs the whole script on every interaction.  A run
    reads the widget values of the browser, changes the store and the
    session state, and renders elements until it ends, calls
    [st.stop()] or dies on an uncaught exception. *)

(** [st.session_state["user"]]. *)
Record session_user := mkSessionUser {
  su_id : Z;
  su_name : string;
  su_role : option string;
  su_email : string
}.

Inductive page := Strength_Tests | Sessions | Diagnostics | Settings.

(** The buttons of the script.  A run is triggered by one interaction,
    so at most one button reads [True] in it. *)
Inductive button :=
| Sign_in
| Log_out
| Guardar_test
| Anadir_sesion
| Anadir_serie (session_id : Z)
| Reset_database.

(** The widgets in the expander of one session (their keys end in the
    session id). *)
Record set_form := mkSetForm {
  f_ex_name : option string;
  f_sets : Z;
  f_reps : Z;
  f_pct : Z;
  f_one_rm_input : float;
  f_load : float;
  f_rest : Z;
  f_notes : string
}.

(** The readings of the system clock taken by one seeding of the demo
    data: [utcnow] for each user row, [date.today()] for each end of the
    plan. *)
Record clock := mkClock {
  utcnow_coach : Z;
  utcnow_client : Z;
  today_start : Z;
  today_end : Z
}.

(** What one run reads from outside the store. *)
Record inputs := mkInputs {
  clicked : option button;
  nav : page;
  in_email : string;
  in_pwd : string;
  in_client_name : string;
  in_ex_name : option string;
  in_test_date : Z;
  in_onerm : float;
  in_test_notes : string;
  in_psel : string;
  in_session_date : option Z;
  in_focus : string;
  in_session_notes : string;
  set_forms : Z -> set_form;
  clock_start : clock;
  clock_reset : clock
}.

(** Rendered elements.  Text built by an f-string is kept as the values
    that are formatted into it. *)
Inductive ui :=
| title (s : string)
| subheader (s : string)
| info (s : string)
| success (s : string)
| warning (s : string)
| error (s : string)
| write (s : string)
| caption (s : option string)
| selectbox (label : string) (options : list (option string))
| session_selectbox (session_id : Z) (options : list (option string))
| welcome (name : string)
| signed_in_as (name : string) (role : option string)
| session_heading (date : option Z) (focus : option string)
| one_rm_field (session_id : Z) (value : float)
| load_field (session_id : Z) (value : float)
| suggestion (suggested one_rm : float) (pct : Z)
| test_line (date : option Z) (ex_name : option string) (one_rm_kg : float)
| set_line (ex_name : option string) (sets reps : option Z)
           (load_kg pct : float) (rest_sec : option Z) (tonnage : float)
| session_total (tonnage : float).

Inductive exn := IntegrityError | KeyError | AttributeError | TypeError.

(** Why a run ended early. *)
Inductive halt := Stop | Raise (e : exn).

Record world := mkWorld {
  store : DB;
  session_state : option session_user;
  screen : list ui
}.

Definition script (A : Type) : Type := world -> (A + halt) * world.

Definition ret {A} (a : A) : script A := fun w => (inl a, w).

Definition bind {A B} (m : script A) (k : A -> script B) : script B :=
  fun w =>
    match m w with
    | (inl a, w') => k a w'
    | (inr h, w') => (inr h, w')
    end.

Notation "x <- m ;; k" := (bind m (fun x => k))
  (at level 61, m at next level, right associativity).
Notation "m ;; k" := (bind m (fun _ => k))
  (at level 61, right associativity).

Definition raise {A} (e : exn) : script A := fun w => (inr (Raise e), w).
Definition st_stop {A} : script A := fun w => (inr Stop, w).

Definition query {A} (q : DB -> A) : script A :=
  fun w => (inl (q (store w)), w).

Definition put_store (db : DB) : script unit :=
  fun w => (inl tt, mkWorld db (session_state w) (screen w)).

Definition get_session : script (option session_user) :=
  fun w => (inl (session_state w), w).

Definition put_session (u : option session_user) : script unit :=
  fun w => (inl tt, mkWorld (store w) u (screen w)).

Definition st (e : ui) : script unit :=
  fun w => (inl tt, mkWorld (store w) (session_state w) (screen w ++ [e])).

(** A value that must be there; [e] is raised when it is not. *)
Definition expect {A} (e : exn) (o : option A) : script A :=
  match o with
  | Some a => ret a
  | None => raise e
  end.

(** A commit of one infallible insert. *)
Definition commit {A} (ins : DB -> DB * A) : script A :=
  db <- query (fun db => db) ;;
  put_store (fst (ins db)) ;;
  ret (snd (ins db)).

Definition when (b : bool) (m : script unit) : script unit :=
  if b then m else ret tt.

Fixpoint for_each {A} (l : list A) (body : A -> script unit) : script unit :=
  match l with
  | [] => ret tt
  | x :: l' => body x ;; for_each l' body
  end.

Fixpoint map_m {A B} (f : A -> script B) (l : list A) : script (list B) :=
  match l with
  | [] => ret []
  | x :: l' => y <- f x ;; ys <- map_m f l' ;; ret (y :: ys)
  end.

Fixpoint fold_m {A B} (f : B -> A -> script B) (l : list A) (acc : B) : script B :=
  match l with
  | [] => ret acc
  | x :: l' => acc' <- f acc x ;; fold_m f l' acc'
  end.

Definition button_eqb (a b : button) : bool :=
  match a, b with
  | Sign_in, Sign_in | Log_out, Log_out | Guardar_test, Guardar_test
  | Anadir_sesion, Anadir_sesion | Reset_database, Reset_database => true
  | Anadir_serie i, Anadir_serie j => i =? j
  | _, _ => false
  end.

(** [st.button(...)] for button [b] in a run with inputs [inp]. *)
Definition pressed (inp : inputs) (b : button) : bool :=
  match clicked inp with
  | Some c => button_eqb c b
  | None => false
  end.

(** ** Demo data *)

Definition demo_coach (clk : clock) (id : Z) : User.t :=
  User.mk id "coach@example.com" "Coach Demo" (Some "coach") "demo"
          (Some (utcnow_coach clk)).

Definition demo_client_user (clk : clock) (id : Z) : User.t :=
  User.mk id "client@example.com" "Client Demo" (Some "client") "demo"
          (Some (utcnow_client clk)).

(** [dob] is [date(1990,1,1).toordinal()]. *)
Definition demo_client (client_user coach : User.t) (id : Z) : Client.t :=
  Client.mk id (Some (User.id client_user)) (Some "female") (Some 726468)
            (Some 165%float) (Some 60%float) (Some "") (Some (User.id coach)).

Definition demo_exercise (name category equipment : string) (id : Z) : Exercise.t :=
  Exercise.mk id (Some name) (Some category) (Some equipment) (Some false) (Some "").

Definition demo_plan (clk : clock) (c : Client.t) (id : Z) : TrainingPlan.t :=
  TrainingPlan.mk id (Some (Client.id c)) (Some "Preseason 4 weeks")
                  (Some (today_start clk)) (Some (today_end clk + 27))
                  (Some "Fuerza básica").

(** The first commit of the seeding: both users. *)
Definition seed_users (clk : clock) (db : DB) : option (DB * (User.t * User.t)) :=
  match insert_user db (demo_coach clk) with
  | None => None
  | Some (db1, coach) =>
      match insert_user db1 (demo_client_user clk) with
      | None => None
      | Some (db2, client_user) => Some (db2, (coach, client_user))
      end
  end.

Fixpoint insert_exercises (db : DB) (rows : list (Z -> Exercise.t)) : option DB :=
  match rows with
  | [] => Some db
  | row :: rows' =>
      match insert_exercise db row with
      | None => None
      | Some (db', _) => insert_exercises db' rows'
      end
  end.

(** The second commit: the client and the four exercises, all or
    nothing. *)
Definition seed_catalog (coach client_user : User.t) (db : DB)
  : option (DB * Client.t) :=
  let (db1, c) := insert_client db (demo_client client_user coach) in
  match insert_exercises db1
          [ demo_exercise "Back Squat" "squat" "barbell";
            demo_exercise "Bench Press" "push" "barbell";
            demo_exercise "Deadlift" "hinge" "barbell";
            demo_exercise "Lat Pulldown" "pull" "machine" ] with
  | None => None
  | Some db2 => Some (db2, c)
  end.

(** A commit that a UNIQUE constraint can refuse: the store keeps what
    was committed before and [IntegrityError] is raised. *)
Definition commit_or_fail {A} (tx : DB -> option (DB * A)) : script A :=
  db <- query (fun db => db) ;;
  r <- expect IntegrityError (tx db) ;;
  put_store (fst r) ;;
  ret (snd r).

Definition init_demo_data (clk : clock) : script unit :=
  u <- query (fun db => first db.(users)) ;;
  match u with
  | Some _ => ret tt
  | None =>
      us <- commit_or_fail (seed_users clk) ;;
      c <- commit_or_fail (seed_catalog (fst us) (snd us)) ;;
      commit (fun db => insert_training_plan db (demo_plan clk c)) ;;
      ret tt
  end.

(** ** Auth (demo) *)

Definition login (inp : inputs) : script unit :=
  st (subheader "Login (demo)") ;;
  when (pressed inp Sign_in)
    (user <- query (fun db =>
               first (filter (fun u => String.eqb (User.email u) (in_email inp)
                                       && String.eqb (User.hash u) (in_pwd inp))
                             db.(users))) ;;
     match user with
     | Some u =>
         put_session (Some (mkSessionUser (User.id u) (User.name u)
                                           (User.role u) (User.email u))) ;;
         st (welcome (User.name u))
     | None =>
         st (error "Invalid credentials (demo user: coach@example.com / demo)")
     end).

Definition require_auth (inp : inputs) : script unit :=
  u <- get_session ;;
  match u with
  | None =>
      st (warning "Please log in to continue.") ;;
      login inp ;;
      st_stop
  | Some _ => ret tt
  end.

(** ** Pages *)

Definition opt_string_eqb : option string -> option string -> bool :=
  opt_eqb String.eqb.

(** [{e.name: e.id for e in exs}]. *)
Definition exmap_of (exs : list Exercise.t) : list (option string * Z) :=
  Py.dict_of opt_string_eqb (map (fun e => (Exercise.name e, Exercise.id e)) exs).

(** The rows built from the forms:
    [StrengthTest(client_id=..., exercise_id=..., date=date, one_rm_kg=onerm, notes=notes)],
    [TrainingSession(plan_id=plan.id, date=d, focus=focus, notes=notes)] and
    [SetPrescription(session_id=s.id, ..., sets=int(sets), reps=int(reps),
    intensity_pct_1rm=float(pct), load_kg=float(load), rest_sec=int(rest),
    notes=notes)]. *)
Definition new_strength_test (cid eid : Z) (inp : inputs) (id : Z) : StrengthTest.t :=
  StrengthTest.mk id (Some cid) (Some eid) (Some (in_test_date inp))
                  (Some (in_onerm inp)) (Some (in_test_notes inp)).

Definition new_training_session (plan : TrainingPlan.t) (inp : inputs) (id : Z)
  : TrainingSession.t :=
  TrainingSession.mk id (Some (TrainingPlan.id plan)) (in_session_date inp)
                     (Some (in_focus inp)) (Some (in_session_notes inp)).

Definition new_set_prescription (sid ex_id : Z) (f : set_form) (id : Z)
  : SetPrescription.t :=
  SetPrescription.mk id (Some sid) (Some ex_id) (Some (f_sets f)) (Some (f_reps f))
                     (Some (Py.float_of_int (f_pct f))) (Some (f_load f))
                     (Some (f_rest f)) (Some (f_notes f)).

(** One line of the history; [ex.name] fails on a missing exercise, the
    [.1f] format on a NULL [one_rm_kg]. *)
Definition write_test (t : StrengthTest.t) : script unit :=
  ex <- query (fun db => get_by Exercise.id db.(exercises) (StrengthTest.exercise_id t)) ;;
  e <- expect AttributeError ex ;;
  r <- expect TypeError (StrengthTest.one_rm_kg t) ;;
  st (test_line (StrengthTest.date t) (Exercise.name e) r).

Definition page_strength_tests (inp : inputs) : script unit :=
  st (title "🧪 Strength Tests (1RM)") ;;
  s <- get_session ;;
  user <- expect KeyError s ;;
  clients <- query (fun db =>
               filter (fun c => col_eq (Client.owner_id c) (su_id user)) db.(clients)) ;;
  match clients with
  | [] => st (info "Crea un cliente primero.")
  | _ =>
      named <- map_m (fun c =>
                 u <- query (fun db => get_by User.id db.(users) (Client.user_id c)) ;;
                 u' <- expect AttributeError u ;;
                 ret (User.name u', Client.id c)) clients ;;
      let client_map := Py.dict_of String.eqb named in
      st (selectbox "Cliente" (map Some (Py.dict_keys client_map))) ;;
      exs <- query (fun db => db.(exercises)) ;;
      match exs with
      | [] => st (info "Añade ejercicios en la librería primero.")
      | _ =>
          let exmap := exmap_of exs in
          st (selectbox "Ejercicio" (Py.dict_keys exmap)) ;;
          when (pressed inp Guardar_test)
            (cid <- expect KeyError
                      (Py.dict_get String.eqb (in_client_name inp) client_map) ;;
             eid <- expect KeyError
                      (Py.dict_get opt_string_eqb (in_ex_name inp) exmap) ;;
             commit (fun db => insert_strength_test db (new_strength_test cid eid inp)) ;;
             st (success "Test guardado")) ;;
          st (subheader "Histórico recientes") ;;
          cid <- expect KeyError
                   (Py.dict_get String.eqb (in_client_name inp) client_map) ;;
          tests <- query (fun db => recent_tests db cid) ;;
          for_each tests write_test
      end
  end.

(** One row of a session: its line, its notes, and the running total
    after it. *)
Definition write_set (session_tonnage : float) (sp : SetPrescription.t)
  : script float :=
  ex <- query (fun db => get_by Exercise.id db.(exercises) (SetPrescription.exercise_id sp)) ;;
  let tonnage := set_tonnage sp in
  let session_tonnage := (session_tonnage + tonnage)%float in
  e <- expect AttributeError ex ;;
  load <- expect TypeError (SetPrescription.load_kg sp) ;;
  st (set_line (Exercise.name e) (SetPrescription.sets sp) (SetPrescription.reps sp)
               load (Py.float_or (SetPrescription.intensity_pct_1rm sp) 0)
               (SetPrescription.rest_sec sp) tonnage) ;;
  when (Py.truthy_opt_str (SetPrescription.notes sp))
       (st (caption (SetPrescription.notes sp))) ;;
  ret session_tonnage.

Section Sessions.

(** [str(d)] of a [datetime.date]. *)
Variable isoformat : Z -> string.

Definition str_date (d : option Z) : string :=
  match d with
  | Some x => isoformat x
  | None => "None"
  end.

(** [f"{p.name} ({p.start_date}→{p.end_date})"]. *)
Definition plan_label (p : TrainingPlan.t) : string :=
  (Py.str_opt (TrainingPlan.name p) ++ " ("
     ++ str_date (TrainingPlan.start_date p) ++ "→"
     ++ str_date (TrainingPlan.end_date p) ++ ")")%string.

(** The body of [for s in sessions]. *)
Definition show_session (inp : inputs) (plan : TrainingPlan.t)
           (exmap : list (option string * Z)) (s : TrainingSession.t)
  : script unit :=
  let sid := TrainingSession.id s in
  let f := set_forms inp sid in
  st (session_heading (TrainingSession.date s) (TrainingSession.focus s)) ;;
  when (Py.truthy_opt_str (TrainingSession.notes s))
       (st (caption (TrainingSession.notes s))) ;;
  st (session_selectbox sid (Py.dict_keys exmap)) ;;
  ex_id <- expect KeyError (Py.dict_get opt_string_eqb (f_ex_name f) exmap) ;;
  let client_id := get_client_id_from_plan plan in
  latest_1rm <- query (fun db => get_latest_one_rm db client_id ex_id) ;;
  st (one_rm_field sid (one_rm_default latest_1rm)) ;;
  let suggested := suggested_load (f_pct f) (f_one_rm_input f) in
  st (load_field sid suggested) ;;
  st (suggestion suggested (f_one_rm_input f) (f_pct f)) ;;
  when (pressed inp (Anadir_serie sid))
    (commit (fun db => insert_set_prescription db (new_set_prescription sid ex_id f)) ;;
     st (success "Serie añadida")) ;;
  sets_ <- query (fun db => sets_of_session db sid) ;;
  session_tonnage <- fold_m write_set sets_ 0%float ;;
  st (session_total session_tonnage).

Definition page_sessions (inp : inputs) : script unit :=
  st (title "🗓️ Sessions & Sets (Tonelaje)") ;;
  plans <- query (fun db => db.(training_plans)) ;;
  match plans with
  | [] => st (info "Crea un plan de entrenamiento primero.")
  | _ =>
      let plan_map :=
        Py.dict_of String.eqb
          (map (fun p => (plan_label p, TrainingPlan.id p)) plans) in
      st (selectbox "Plan" (map Some (Py.dict_keys plan_map))) ;;
      pid <- expect KeyError (Py.dict_get String.eqb (in_psel inp) plan_map) ;;
      found <- query (fun db => get_by TrainingPlan.id db.(training_plans) (Some pid)) ;;
      plan <- expect AttributeError found ;;
      st (caption (TrainingPlan.goal plan)) ;;
      when (pressed inp Anadir_sesion)
        (commit (fun db => insert_training_session db (new_training_session plan inp)) ;;
         st (success "Sesión añadida")) ;;
      sessions <- query (fun db => sessions_of_plan db (TrainingPlan.id plan)) ;;
      exs <- query (fun db => db.(exercises)) ;;
      for_each sessions (show_session inp plan (exmap_of exs))
  end.

Definition page_settings (inp : inputs) : script unit :=
  st (title "⚙️ Settings") ;;
  st (write "This demo stores data in a local SQLite file `strength_only.db`.") ;;
  when (pressed inp Reset_database)
    (db <- query (fun db => db) ;;
     put_store (create_all (drop_all db)) ;;
     init_demo_data (clock_reset inp) ;;
     st (success "Database reset.")).

Definition page_diagnostics : script unit :=
  st (title "🧪 Diagnostics & Tests") ;;
  let tonnage := (Py.float_of_int (5 * 5) * 100)%float in
  if (tonnage =? 2500)%float
  then st (success "Tonnage formula: OK (sets×reps×kg)")
  else st (error "Tonnage formula: FAILED").

Definition page_eqb (a b : page) : bool :=
  match a, b with
  | Strength_Tests, Strength_Tests | Sessions, Sessions
  | Diagnostics, Diagnostics | Settings, Settings => true
  | _, _ => false
  end.

Definition render (p : page) (inp : inputs) : script unit :=
  match p with
  | Strength_Tests => page_strength_tests inp
  | Sessions => page_sessions inp
  | Diagnostics => page_diagnostics
  | Settings => page_settings inp
  end.

(** The sidebar header with the log-out button. *)
Definition sidebar (inp : inputs) : script unit :=
  st (title "Strength Prescriptor") ;;
  u <- get_session ;;
  match u with
  | Some user =>
      st (signed_in_as (su_name user) (su_role user)) ;;
      when (pressed inp Log_out) (put_session None)
  | None => ret tt
  end.

(** "Require auth except diagnostics". *)
Definition gate (inp : inputs) : script unit :=
  u <- get_session ;;
  match u with
  | None => if page_eqb (nav inp) Diagnostics then ret tt else require_auth inp
  | Some _ => ret tt
  end.

(** The lines before the dispatch on [page]: seeding, sidebar and the
    gate. *)
Definition prologue (inp : inputs) : script unit :=
  init_demo_data (clock_start inp) ;;
  sidebar inp ;;
  gate inp.

(** One run of the script. *)
Definition app (inp : inputs) : script unit :=
  prologue inp ;;
  render (nav inp) inp.

(** The browser session: the store and the session state survive from
    one run to the next, the screen is drawn anew. *)
Definition rerun (w : world) (inp : inputs) : world :=
  snd (app inp (mkWorld (store w) (session_state w) [])).

Definition runs (w : world) (inps : list inputs) : world :=
  fold_left rerun inps w.

End Sessions.

(** ** Vocabulary of the statements *)

(** A new database file and a new browser session. *)
Definition fresh : world := mkWorld empty_db None [].

(** The demo rows, written out. *)
Definition seeded (clk : clock) : DB :=
  mkDB
    [ User.mk 1 "coach@example.com" "Coach Demo" (Some "coach") "demo"
              (Some (utcnow_coach clk));
      User.mk 2 "client@example.com" "Client Demo" (Some "client") "demo"
              (Some (utcnow_client clk)) ]
    [ Client.mk 1 (Some 2) (Some "female") (Some 726468) (Some 165%float)
                (Some 60%float) (Some "") (Some 1) ]
    [ Exercise.mk 1 (Some "Back Squat") (Some "squat") (Some "barbell")
                  (Some false) (Some "");
      Exercise.mk 2 (Some "Bench Press") (Some "push") (Some "barbell")
                  (Some false) (Some "");
      Exercise.mk 3 (Some "Deadlift") (Some "hinge") (Some "barbell")
                  (Some false) (Some "");
      Exercise.mk 4 (Some "Lat Pulldown") (Some "pull") (Some "machine")
                  (Some false) (Some "") ]
    [ TrainingPlan.mk 1 (Some 1) (Some "Preseason 4 weeks")
                      (Some (today_start clk)) (Some (today_end clk + 27))
                      (Some "Fuerza básica") ]
    [] [] [].

(** The session totals on a screen, top to bottom. *)
Definition totals (es : list ui) : list float :=
  flat_map (fun e => match e with session_total t => [t] | _ => [] end) es.

(** [l'] is [l] with rows added at the end. *)
Definition grows {A} (l l' : list A) : Prop := exists more, l' = l ++ more.

(** No row of [db] is changed or deleted in [db']. *)
Definition extends (db db' : DB) : Prop :=
  grows db.(users) db'.(users)
  /\ grows db.(clients) db'.(clients)
  /\ grows db.(exercises) db'.(exercises)
  /\ grows db.(training_plans) db'.(training_plans)
  /\ grows db.(training_sessions) db'.(training_sessions)
  /\ grows db.(set_prescriptions) db'.(set_prescriptions)
  /\ grows db.(strength_tests) db'.(strength_tests).

(** What every run of a script guarantees between the world it starts
    in and the world it leaves, however it ends. *)
Definition effect {A} (R : world -> world -> Prop) (m : script A) : Prop :=
  forall w r w', m w = (r, w') -> R w w'.

(** The total of a session as the glossary defines it: the sum of
    sets x reps x load over the rows that belong to the session. *)
Definition session_sum (db : DB) (session_id : Z) : float :=
  Py.fsum (map set_tonnage (sets_of_session db session_id)).

(** The primary key of [training_sessions] holds: no id occurs twice. *)
Definition session_ids_unique (db : DB) : Prop :=
  NoDup (map TrainingSession.id db.(training_sessions)).

(** [db'] is [db] with set rows added, each for a session among [ids]. *)
Definition adds_sets (ids : list Z) (db db' : DB) : Prop :=
  exists extra,
    db' = with_set_prescriptions db (db.(set_prescriptions) ++ extra)
    /\ Forall (fun sp => exists i, In i ids
                                  /\ SetPrescription.session_id sp = Some i) extra.

(** Newest first: [b] may follow [a] when its date is no later. *)
Definition newer_first {A} (key : A -> option Z) (a b : A) : Prop :=
  date_le (key b) (key a) = true.

(** The store and the session state are left as they were. *)
Definition same_data (w w' : world) : Prop :=
  store w' = store w /\ session_state w' = session_state w.

(** Every element added to the screen satisfies [P]. *)
Definition shows (P : ui -> Prop) (w w' : world) : Prop :=
  exists new, screen w' = screen w ++ new /\ Forall P new.

(** No row of the store is changed or deleted. *)
Definition store_extends (w w' : world) : Prop := extends (store w) (store w').


(** The lines of the test history on a screen: date, exercise name and
    1RM of each. *)
Definition history (es : list ui) : list (option Z * option string * float) :=
  flat_map (fun e => match e with
                     | test_line d n r => [(d, n, r)]
                     | _ => []
                     end) es.

(** [line] is test [t] with the name of its exercise looked up in [db]. *)
Definition annotated (db : DB) (t : StrengthTest.t)
           (line : option Z * option string * float) : Prop :=
  exists e r,
    get_by Exercise.id db.(exercises) (StrengthTest.exercise_id t) = Some e
    /\ StrengthTest.one_rm_kg t = Some r
    /\ line = (StrengthTest.date t, Exercise.name e, r).

(** A store the seeding can run on: without any table content, or with
    a user row. *)
Definition seedable (db : DB) : Prop := db = empty_db \/ db.(users) <> [].

(** The worlds a browser can be in: a new database file and session,
    any world after one more run of the script, and any store met by a
    new browser session. *)
Inductive reachable (isoformat : Z -> string) : world -> Prop :=
| reach_fresh : reachable isoformat fresh
| reach_rerun w inp :
    reachable isoformat w -> reachable isoformat (rerun isoformat w inp)
| reach_new_session w :
    reachable isoformat w -> reachable isoformat (mkWorld (store w) None []).

(** The user row that matches the credentials typed in the sidebar:
    [query(User).filter(User.email==email, User.hash==pwd).first()]. *)
Definition matching_user (db : DB) (inp : inputs) : option User.t :=
  first (filter (fun u => String.eqb (User.email u) (in_email inp)
                          && String.eqb (User.hash u) (in_pwd inp))
                db.(users)).

(** The session record made of a user row. *)
Definition session_of (u : User.t) : session_user :=
  mkSessionUser (User.id u) (User.name u) (User.role u) (User.email u).

(** The session state the sidebar leaves: a click on "Log out" drops
    the user. *)
Definition after_sidebar (inp : inputs) (s : option session_user)
  : option session_user :=
  match s with
  | Some u => if pressed inp Log_out then None else Some u
  | None => None
  end.

(** The session state and the tables no form writes to are left as they
    were. *)
Definition keeps_catalog (w w' : world) : Prop :=
  session_state w' = session_state w
  /\ users (store w') = users (store w)
  /\ clients (store w') = clients (store w)
  /\ exercises (store w') = exercises (store w)
  /\ training_plans (store w') = training_plans (store w).

(** The primary key of every table holds: no id occurs twice in it. *)
Definition keys_unique (db : DB) : Prop :=
  NoDup (map User.id db.(users))
  /\ NoDup (map Client.id db.(clients))
  /\ NoDup (map Exercise.id db.(exercises))
  /\ NoDup (map TrainingPlan.id db.(training_plans))
  /\ NoDup (map TrainingSession.id db.(training_sessions))
  /\ NoDup (map SetPrescription.id db.(set_prescriptions))
  /\ NoDup (map StrengthTest.id db.(strength_tests)).

Definition keeps_keys (w w' : world) : Prop :=
  keys_unique (store w) -> keys_unique (store w').

(** The store is as it was, or has exactly one more row: a test, a
    session, or a set. *)
Definition one_test_more (w w' : world) : Prop :=
  store w' = store w
  \/ exists t, store w' = with_strength_tests (store w)
                            (strength_tests (store w) ++ [t]).

Definition one_session_more (w w' : world) : Prop :=
  store w' = store w
  \/ exists s, store w' = with_training_sessions (store w)
                            (training_sessions (store w) ++ [s]).

Definition one_set_more (w w' : world) : Prop :=
  store w' = store w
  \/ exists sp, store w' = with_set_prescriptions (store w)
                             (set_prescriptions (store w) ++ [sp]).

(** The users table holds the two demo accounts and nothing else. *)
Definition demo_accounts (db : DB) : Prop :=
  map (fun u => (User.id u, User.email u, User.name u, User.role u, User.hash u))
      db.(users)
  = [ (1, "coach@example.com", "Coach Demo", Some "coach", "demo");
      (2, "client@example.com", "Client Demo", Some "client", "demo") ].

(** *** Sample data *)

Definition sample_clock : clock := mkClock 1700000000000000 1700000000000001 738000 738000.

Definition sample_form : set_form :=
  mkSetForm (Some "Back Squat") 4 6 75 100 75 120 "".

Definition sample_inputs (click : option button) (p : page) : inputs :=
  mkInputs click p "coach@example.com" "demo" "Client Demo" (Some "Back Squat")
           738001 100 "" "Preseason 4 weeks (2021-07-29→2021-08-25)"
           (Some 738000) "Fuerza (básica)" "" (fun _ => sample_form)
           sample_clock sample_clock.

(** The same inputs with another test date, 1RM and typed credentials. *)
Definition sample_inputs_with (click : option button) (p : page)
           (test_date : Z) (onerm : float) (email pwd : string) : inputs :=
  mkInputs click p email pwd "Client Demo" (Some "Back Squat")
           test_date onerm "" "Preseason 4 weeks (2021-07-29→2021-08-25)"
           (Some 738000) "Fuerza (básica)" "" (fun _ => sample_form)
           sample_clock sample_clock.

Definition sample_isoformat (d : Z) : string :=
  if d =? 738000 then "2021-07-29" else if d =? 738027 then "2021-08-25" else "".

(** The coach of the demo data, signed in. *)
Definition sample_coach : session_user :=
  mkSessionUser 1 "Coach Demo" (Some "coach") "coach@example.com".

(** A store after some use: one session of the demo plan, two sets in
    it, two tests of the demo client. *)
Definition sample_store : DB :=
  mkDB (users (seeded sample_clock)) (clients (seeded sample_clock))
       (exercises (seeded sample_clock)) (training_plans (seeded sample_clock))
       [ TrainingSession.mk 1 (Some 1) (Some 738000) (Some "Fuerza (básica)") (Some "") ]
       [ SetPrescription.mk 1 (Some 1) (Some 1) (Some 4) (Some 6) (Some 75%float)
                            (Some 75%float) (Some 120) (Some "");
         SetPrescription.mk 2 (Some 1) (Some 2) (Some 3) (Some 8) (Some 70%float)
                            (Some 42.5%float) (Some 90) (Some "pausa") ]
       [ StrengthTest.mk 1 (Some 1) (Some 1) (Some 738001) (Some 100%float) (Some "");
         StrengthTest.mk 2 (Some 1) (Some 2) (Some 738002) (Some 60%float) (Some "") ].

Definition sample_world : world := mkWorld sample_store (Some sample_coach) [].

(** The same store with a set whose exercise row is missing. *)
Definition dangling_store : DB :=
  with_set_prescriptions sample_store
    (set_prescriptions sample_store
       ++ [ SetPrescription.mk 3 (Some 1) (Some 99) (Some 5) (Some 5) (Some 80%float)
                               (Some 60%float) (Some 120) (Some "") ]).

(** ** Proofs *)

(** *** Running scripts *)

Lemma bind_inl {A B} (m : script A) (k : A -> script B) w b w' :
  bind m k w = (inl b, w') ->
  exists a w1, m w = (inl a, w1) /\ k a w1 = (inl b, w').
Proof.
  unfold bind. destruct (m w) as [[a | h] w1]; intros H.
  - exists a, w1. split; [reflexivity | exact H].
  - discriminate H.
Qed.

Lemma bind_run {A B} (m : script A) (k : A -> script B) w a w1 :
  m w = (inl a, w1) -> bind m k w = k a w1.
Proof. unfold bind. intros ->. reflexivity. Qed.

Lemma bind_halt {A B} (m : script A) (k : A -> script B) w h w1 :
  m w = (inr h, w1) -> bind m k w = (inr h, w1).
Proof. unfold bind. intros ->. reflexivity. Qed.

Lemma expect_inl {A} e (o : option A) w a w' :
  expect e o w = (inl a, w') -> o = Some a /\ w' = w.
Proof.
  destruct o as [x |]; cbn; intros H; inversion H; subst; auto.
Qed.

Section Effects.
Context (R : world -> world -> Prop).
Hypothesis R_refl : forall w, R w w.
Hypothesis R_trans : forall w1 w2 w3, R w1 w2 -> R w2 w3 -> R w1 w3.

Lemma effect_ret {A} (a : A) : effect R (ret a).
Proof. intros w r w' H. inversion H; subst. apply R_refl. Qed.

Lemma effect_raise {A} e : effect R (@raise A e).
Proof. intros w r w' H. inversion H; subst. apply R_refl. Qed.

Lemma effect_stop {A} : effect R (@st_stop A).
Proof. intros w r w' H. inversion H; subst. apply R_refl. Qed.

Lemma effect_query {A} (q : DB -> A) : effect R (query q).
Proof. intros w r w' H. inversion H; subst. apply R_refl. Qed.

Lemma effect_get_session : effect R get_session.
Proof. intros w r w' H. inversion H; subst. apply R_refl. Qed.

Lemma effect_expect {A} e (o : option A) : effect R (expect e o).
Proof. destruct o; [apply effect_ret | apply effect_raise]. Qed.

Lemma effect_bind {A B} (m : script A) (k : A -> script B) :
  effect R m -> (forall a, effect R (k a)) -> effect R (bind m k).
Proof.
  intros Hm Hk w r w'. unfold bind.
  destruct (m w) as [[a | h] w1] eqn:E; intros H.
  - eapply R_trans; [eapply Hm; exact E | eapply Hk; exact H].
  - inversion H; subst. eapply Hm; exact E.
Qed.

Lemma effect_when b (m : script unit) : effect R m -> effect R (when b m).
Proof. destruct b; cbn; [auto | intros _; apply effect_ret]. Qed.

Lemma effect_for_each {A} (l : list A) (body : A -> script unit) :
  (forall x, effect R (body x)) -> effect R (for_each l body).
Proof.
  intros Hb. induction l as [| x l IH]; cbn.
  - apply effect_ret.
  - apply effect_bind; [apply Hb | intros _; exact IH].
Qed.

Lemma effect_map_m {A B} (f : A -> script B) (l : list A) :
  (forall x, effect R (f x)) -> effect R (map_m f l).
Proof.
  intros Hf. induction l as [| x l IH]; cbn.
  - apply effect_ret.
  - apply effect_bind; [apply Hf | intros y].
    apply effect_bind; [exact IH | intros ys; apply effect_ret].
Qed.

Lemma effect_fold_m {A B} (f : B -> A -> script B) (l : list A) :
  (forall acc x, effect R (f acc x)) -> forall acc, effect R (fold_m f l acc).
Proof.
  intros Hf. induction l as [| x l IH]; cbn; intros acc.
  - apply effect_ret.
  - apply effect_bind; [apply Hf | intros acc'; apply IH].
Qed.
End Effects.

(** *** Demo data and reset *)

Lemma init_demo_data_seeds clk session scr :
  init_demo_data clk (mkWorld empty_db session scr)
  = (inl tt, mkWorld (seeded clk) session scr).
Proof. reflexivity. Qed.

Lemma init_demo_data_skips clk w :
  users (store w) <> [] -> init_demo_data clk w = (inl tt, w).
Proof.
  intros H. unfold init_demo_data, bind, query, first.
  destruct (users (store w)) as [| u l]; [contradiction | reflexivity].
Qed.

(** C10.  Seeding is idempotent: with a user row in the store
    [init_demo_data] changes nothing, and two seedings in a row from an
    empty store leave what one leaves. *)
Theorem init_demo_data_idempotent :
  (forall clk w, users (store w) <> [] -> init_demo_data clk w = (inl tt, w))
  /\ (forall clk clk' w,
        store w = empty_db ->
        (init_demo_data clk ;; init_demo_data clk') w = init_demo_data clk w).
Proof.
  split.
  - exact init_demo_data_skips.
  - intros clk clk' [db session scr] H. cbn in H. subst db.
    rewrite (bind_run _ _ _ _ _ (init_demo_data_seeds clk session scr)).
    rewrite init_demo_data_seeds.
    apply init_demo_data_skips. cbn. discriminate.
Qed.

Lemma init_demo_data_idempotent_witness :
  users (seeded sample_clock) <> []
  /\ init_demo_data sample_clock (mkWorld (seeded sample_clock) None [])
     = (inl tt, mkWorld (seeded sample_clock) None [])
  /\ (init_demo_data sample_clock ;; init_demo_data sample_clock) fresh
     = init_demo_data sample_clock fresh.
Proof.
  split; [discriminate |].
  split.
  - apply (proj1 init_demo_data_idempotent). discriminate.
  - apply (proj2 init_demo_data_idempotent). reflexivity.
Defined.

Lemma reset_leaves_demo_rows_block inp w :
  pressed inp Reset_database = true ->
  exists w',
    page_settings inp w = (inl tt, w') /\ store w' = seeded (clock_reset inp).
Proof.
  intros H. unfold page_settings. rewrite H.
  cbv [bind st when query put_store create_all drop_all
       store session_state screen].
  rewrite init_demo_data_seeds.
  eexists. split; reflexivity.
Qed.

(** C6.  A click on "Reset database" ends with the store holding the
    demo rows and nothing else, whatever it held before: two users (the
    coach, then the client user), one client, four exercises, one plan,
    no session, no test and no set. *)
Theorem reset_leaves_demo_rows :
  forall inp w,
    pressed inp Reset_database = true ->
    exists w',
      page_settings inp w = (inl tt, w')
      /\ store w' = seeded (clock_reset inp)
      /\ map User.role (users (store w')) = [Some "coach"; Some "client"]
      /\ List.length (clients (store w')) = 1%nat
      /\ List.length (exercises (store w')) = 4%nat
      /\ List.length (training_plans (store w')) = 1%nat
      /\ training_sessions (store w') = []
      /\ strength_tests (store w') = []
      /\ set_prescriptions (store w') = [].
Proof.
  intros inp w H. unfold page_settings. rewrite H.
  cbv [bind st when query put_store create_all drop_all
       store session_state screen].
  rewrite init_demo_data_seeds.
  eexists. split; [reflexivity |].
  cbv [store seeded users clients exercises training_plans training_sessions
       strength_tests set_prescriptions map User.role List.length].
  repeat split; reflexivity.
Qed.

Lemma reset_leaves_demo_rows_witness :
  exists w',
    page_settings (sample_inputs (Some Reset_database) Settings)
                  (mkWorld (with_users (seeded sample_clock) []) (Some sample_coach) [])
    = (inl tt, w')
    /\ store w' = seeded sample_clock.
Proof.
  destruct (reset_leaves_demo_rows
              (sample_inputs (Some Reset_database) Settings)
              (mkWorld (with_users (seeded sample_clock) []) (Some sample_coach) [])
              eq_refl) as [w' [H1 [H2 _]]].
  exists w'. split; assumption.
Defined.

(** *** Ordered queries *)

Lemma date_le_refl a : date_le a a = true.
Proof. destruct a; cbn; [apply Z.leb_refl | reflexivity]. Qed.

Lemma date_le_total a b : date_le a b = false -> date_le b a = true.
Proof.
  destruct a, b; cbn; try discriminate; try reflexivity.
  intros H. apply Z.leb_gt in H. apply Z.leb_le. lia.
Qed.

Lemma date_le_trans a b c :
  date_le a b = true -> date_le b c = true -> date_le a c = true.
Proof.
  destruct a, b, c; cbn; try discriminate; try reflexivity.
  intros H1 H2. apply Z.leb_le in H1, H2. apply Z.leb_le. lia.
Qed.

Lemma in_firstn {A} (x : A) n l : In x (firstn n l) -> In x l.
Proof.
  revert l. induction n as [| n IH]; intros [| y l]; cbn; try tauto.
  intros [H | H]; [left; exact H | right; apply IH, H].
Qed.

Section OrderByFacts.
Context {A : Type} (key : A -> option Z).

Lemma place_perm x l :
  Permutation (x :: l) (place key (fun a b => date_le b a) x l).
Proof.
  induction l as [| y l IH]; cbn.
  - apply Permutation_refl.
  - destruct (date_le (key y) (key x)).
    + apply Permutation_refl.
    + eapply perm_trans; [apply perm_swap | apply perm_skip, IH].
Qed.

Lemma order_by_desc_perm l : Permutation l (order_by_desc key l).
Proof.
  unfold order_by_desc. induction l as [| x l IH]; cbn.
  - apply perm_nil.
  - eapply perm_trans; [apply perm_skip, IH | apply place_perm].
Qed.

Lemma place_sorted x l :
  StronglySorted (newer_first key) l ->
  StronglySorted (newer_first key) (place key (fun a b => date_le b a) x l).
Proof.
  induction 1 as [| y l Hs IH Hy]; cbn.
  - constructor; [constructor | constructor].
  - destruct (date_le (key y) (key x)) eqn:E.
    + constructor; [constructor; assumption |].
      constructor; [exact E |].
      rewrite Forall_forall in Hy |- *. intros z Hz.
      unfold newer_first. eapply date_le_trans; [apply Hy, Hz | exact E].
    + constructor; [exact IH |].
      apply date_le_total in E.
      rewrite Forall_forall in Hy |- *. intros z Hz.
      apply (Permutation_in _ (Permutation_sym (place_perm x l))) in Hz.
      destruct Hz as [<- | Hz]; [exact E | apply Hy, Hz].
Qed.

Lemma order_by_desc_sorted l : StronglySorted (newer_first key) (order_by_desc key l).
Proof.
  unfold order_by_desc. induction l as [| x l IH]; cbn.
  - constructor.
  - apply place_sorted, IH.
Qed.

Lemma sorted_head_newest x l :
  StronglySorted (newer_first key) (x :: l) ->
  forall y, In y (x :: l) -> date_le (key y) (key x) = true.
Proof.
  intros H y [<- | Hy].
  - apply date_le_refl.
  - inversion H as [| ? ? _ Hall]; subst.
    rewrite Forall_forall in Hall. apply Hall, Hy.
Qed.

Lemma sorted_firstn n l :
  StronglySorted (newer_first key) l -> StronglySorted (newer_first key) (firstn n l).
Proof.
  intros H. revert n. induction H as [| x l Hs IH Hx]; intros [| n]; cbn;
    try constructor.
  - apply IH.
  - rewrite Forall_forall in Hx |- *. intros y Hy.
    apply Hx. eapply in_firstn; eassumption.
Qed.
End OrderByFacts.

Lemma col_is_true c v : col_is c v = true <-> c = v.
Proof.
  destruct c as [a |], v as [b |]; cbn; split; intros H;
    try discriminate; try reflexivity.
  - apply Z.eqb_eq in H. congruence.
  - inversion H; subst. apply Z.eqb_refl.
Qed.

Lemma col_eq_true c v : col_eq c v = true <-> c = Some v.
Proof. apply col_is_true. Qed.

(** *** Latest 1RM *)

(** C3.  [get_latest_one_rm] answers [None] when no test row is of the
    client and the exercise; otherwise it answers the [one_rm_kg] of a
    row of that pair whose date no other row of the pair exceeds. *)
Theorem get_latest_one_rm_newest :
  forall db client_id exercise_id,
    let of_pair t :=
      StrengthTest.client_id t = client_id
      /\ StrengthTest.exercise_id t = Some exercise_id in
    ((forall t, In t db.(strength_tests) -> ~ of_pair t) ->
     get_latest_one_rm db client_id exercise_id = None)
    /\ ((exists t, In t db.(strength_tests) /\ of_pair t) ->
        exists test,
          In test db.(strength_tests) /\ of_pair test
          /\ (forall t, In t db.(strength_tests) -> of_pair t ->
                date_le (StrengthTest.date t) (StrengthTest.date test) = true)
          /\ get_latest_one_rm db client_id exercise_id
             = StrengthTest.one_rm_kg test).
Proof.
  intros db c e of_pair.
  unfold get_latest_one_rm, latest_test, first.
  set (p := fun t => col_is (StrengthTest.client_id t) c
                     && col_eq (StrengthTest.exercise_id t) e).
  assert (Hp : forall t, p t = true <-> of_pair t).
  { intros t. unfold p, of_pair.
    rewrite andb_true_iff, col_is_true, col_eq_true. reflexivity. }
  pose proof (order_by_desc_perm StrengthTest.date (filter p (strength_tests db))) as Hperm.
  pose proof (order_by_desc_sorted StrengthTest.date (filter p (strength_tests db))) as Hsort.
  destruct (order_by_desc StrengthTest.date (filter p (strength_tests db)))
    as [| test rest] eqn:E; cbn.
  - split; [reflexivity |].
    intros [t [Hin Ht]]. exfalso.
    assert (Hf : In t (filter p (strength_tests db))).
    { apply filter_In. split; [exact Hin | apply Hp, Ht]. }
    apply (Permutation_in _ Hperm) in Hf. exact Hf.
  - assert (Hin : In test (filter p (strength_tests db))).
    { apply (Permutation_in _ (Permutation_sym Hperm)). left. reflexivity. }
    apply filter_In in Hin. destruct Hin as [Hin Htest].
    split.
    + intros Hnone. exfalso. apply (Hnone test Hin). apply Hp, Htest.
    + intros _. exists test. split; [exact Hin |].
      split; [apply Hp, Htest |]. split; [| reflexivity].
      intros t Ht Hpair.
      apply (sorted_head_newest StrengthTest.date test rest Hsort).
      apply (Permutation_in _ Hperm). apply filter_In.
      split; [exact Ht | apply Hp, Hpair].
Qed.

Lemma get_latest_one_rm_newest_witness :
  let db := with_strength_tests (seeded sample_clock)
              [ StrengthTest.mk 1 (Some 1) (Some 1) (Some 738001) (Some 100%float) (Some "");
                StrengthTest.mk 2 (Some 1) (Some 1) (Some 738005) (Some 110%float) (Some "");
                StrengthTest.mk 3 (Some 1) (Some 2) (Some 738009) (Some 60%float) (Some "") ] in
  get_latest_one_rm (seeded sample_clock) (Some 1) 1 = None
  /\ exists test,
       In test db.(strength_tests)
       /\ StrengthTest.date test = Some 738005
       /\ get_latest_one_rm db (Some 1) 1 = StrengthTest.one_rm_kg test.
Proof.
  intros db. split.
  - apply (proj1 (get_latest_one_rm_newest (seeded sample_clock) (Some 1) 1)).
    intros t [].
  - destruct (proj2 (get_latest_one_rm_newest db (Some 1) 1)) as [test [Hin [Hpair [Hmax Heq]]]].
    + eexists. split; [left; reflexivity | split; reflexivity].
    + exists test. split; [exact Hin |]. split; [| exact Heq].
      assert (H2 := Hmax (StrengthTest.mk 2 (Some 1) (Some 1) (Some 738005)
                                          (Some 110%float) (Some ""))
                         (or_intror (or_introl eq_refl)) (conj eq_refl eq_refl)).
      destruct Hin as [<- | [<- | [<- | []]]]; cbn in H2 |- *.
      * discriminate H2.
      * reflexivity.
      * destruct Hpair as [_ Hex]. discriminate Hex.
Defined.

(** C4.  The default of the 1RM field at a stored test of 0.0 kg: the
    latest test exists and reads 0.0, the field starts at 100.0. *)
Theorem one_rm_default_at_zero_test :
  let db := with_strength_tests (seeded sample_clock)
              [ StrengthTest.mk 1 (Some 1) (Some 1) (Some 738001) (Some 0%float) (Some "") ] in
  let db' := with_training_sessions db
               [ TrainingSession.mk 1 (Some 1) (Some 738000) (Some "Fuerza (básica)") (Some "") ] in
  get_latest_one_rm db' (Some 1) 1 = Some 0%float
  /\ one_rm_default (get_latest_one_rm db' (Some 1) 1) = 100%float
  /\ In (one_rm_field 1 100%float)
        (screen (snd (page_sessions sample_isoformat (sample_inputs None Sessions)
                                    (mkWorld db' (Some sample_coach) [])))).
Proof.
  cbv zeta. split; [reflexivity |]. split; [reflexivity |].
  vm_compute. do 5 right. left. reflexivity.
Qed.

(** *** Referential integrity *)

(** C5, as the store behaves.  Adding and committing a client row
    always succeeds: the row is stored under a fresh id whatever its
    [user_id] is, existing user or not. *)
Theorem insert_client_never_refused :
  forall (row : Z -> Client.t) (w : world),
    let c := row (next_id (map Client.id (clients (store w)))) in
    commit (fun db => insert_client db row) w
    = (inl c, mkWorld (with_clients (store w) (clients (store w) ++ [c]))
                      (session_state w) (screen w)).
Proof. intros row w. reflexivity. Qed.

(** C5, refuted as stated: a client whose [user_id] is 999 goes into a
    store that has no user 999, and no error is raised. *)
Lemma client_of_unknown_user_is_stored :
  let row := fun id => Client.mk id (Some 999) (Some "male") None None None
                                 (Some "") (Some 1) in
  get_by User.id (users (seeded sample_clock)) (Some 999) = None
  /\ exists w',
       commit (fun db => insert_client db row) (mkWorld (seeded sample_clock) None [])
       = (inl (row 2), w')
       /\ In (row 2) (clients (store w')).
Proof.
  cbv zeta. split; [reflexivity |].
  eexists. split; [reflexivity |]. right. left. reflexivity.
Qed.

(** *** Tonnage *)





(** *** Completed runs, step by step *)

Lemma st_inl e w u w' :
  st e w = (inl u, w') ->
  w' = mkWorld (store w) (session_state w) (screen w ++ [e]).
Proof. intros H. inversion H. reflexivity. Qed.

Lemma query_inl {A} (q : DB -> A) w a w' :
  query q w = (inl a, w') -> a = q (store w) /\ w' = w.
Proof. intros H. inversion H. auto. Qed.

Lemma get_session_inl w a w' :
  get_session w = (inl a, w') -> a = session_state w /\ w' = w.
Proof. intros H. inversion H. auto. Qed.

Lemma ret_inl {A} (x : A) w a w' : ret x w = (inl a, w') -> a = x /\ w' = w.
Proof. intros H. inversion H. auto. Qed.

Lemma commit_inl {A} (ins : DB -> DB * A) w a w' :
  commit ins w = (inl a, w') ->
  a = snd (ins (store w))
  /\ w' = mkWorld (fst (ins (store w))) (session_state w) (screen w).
Proof. intros H. inversion H. auto. Qed.

Lemma when_inl b (m : script unit) w u w' :
  when b m w = (inl u, w') ->
  (b = true /\ m w = (inl u, w')) \/ (b = false /\ w' = w).
Proof.
  destruct b; cbn; intros H; [left; auto | right].
  inversion H. auto.
Qed.

(** One step of a completed run: split the first action off a
    sequence and read its result. *)
Ltac step_as H a H1 :=
  let w1 := fresh "w" in
  apply bind_inl in H; destruct H as (a & w1 & H1 & H);
  lazymatch type of H1 with
  | st _ _ = _ => apply st_inl in H1; subst w1
  | query _ _ = _ => apply query_inl in H1; destruct H1 as [H1 ->]
  | get_session _ = _ => apply get_session_inl in H1; destruct H1 as [H1 ->]
  | expect _ _ _ = _ => apply expect_inl in H1; destruct H1 as [H1 ->]
  | commit _ _ = _ => apply commit_inl in H1; destruct H1 as [H1 ->]
  | ret _ _ = _ => apply ret_inl in H1; destruct H1 as [H1 ->]
  | _ => idtac
  end.

Tactic Notation "step" hyp(H) "as" ident(a) ident(H1) := step_as H a H1.

Tactic Notation "step" hyp(H) :=
  let a := fresh "u" in
  let H1 := fresh "Hstep" in
  step_as H a H1; try subst a.

Lemma totals_app a b : totals (a ++ b) = totals a ++ totals b.
Proof. unfold totals. apply flat_map_app. Qed.

Lemma write_set_inl acc sp w r w' :
  write_set acc sp w = (inl r, w') ->
  r = (acc + set_tonnage sp)%float
  /\ store w' = store w
  /\ session_state w' = session_state w
  /\ exists lines, screen w' = screen w ++ lines /\ totals lines = [].
Proof.
  unfold write_set. intros H.
  step H. step H as e He. step H as load Hload. step H.
  apply bind_inl in H. destruct H as (x1 & w2 & Hw & H).
  apply ret_inl in H. destruct H as [-> ->].
  apply when_inl in Hw. destruct Hw as [[_ Hw] | [_ ->]].
  - apply st_inl in Hw. subst w2. cbn.
    repeat split; trivial.
    eexists. rewrite <- app_assoc. split; reflexivity.
  - cbn. repeat split; trivial. eexists. split; reflexivity.
Qed.

Lemma fold_write_set_inl sets_ : forall acc w r w',
  fold_m write_set sets_ acc w = (inl r, w') ->
  r = fold_left (fun a sp => (a + set_tonnage sp)%float) sets_ acc
  /\ store w' = store w
  /\ session_state w' = session_state w
  /\ exists lines, screen w' = screen w ++ lines /\ totals lines = [].
Proof.
  induction sets_ as [| sp l IH]; cbn [fold_m]; intros acc w r w' H.
  - apply ret_inl in H. destruct H as [-> ->].
    repeat split; trivial. exists []. rewrite app_nil_r. auto.
  - apply bind_inl in H. destruct H as (acc' & w1 & H1 & H).
    apply write_set_inl in H1. destruct H1 as (-> & Hs & Hu & l1 & Hl1 & Ht1).
    apply IH in H. destruct H as (-> & Hs' & Hu' & l2 & Hl2 & Ht2).
    cbn. repeat split; try congruence.
    exists (l1 ++ l2). rewrite Hl2, Hl1, app_assoc. split; [reflexivity |].
    rewrite totals_app, Ht1, Ht2. reflexivity.
Qed.

Lemma fsum_map_tonnage l acc :
  fold_left (fun a sp => (a + set_tonnage sp)%float) l acc
  = fold_left PrimFloat.add (map set_tonnage l) acc.
Proof.
  revert acc. induction l as [| sp l IH]; cbn; intros acc; [reflexivity | apply IH].
Qed.

Lemma show_session_inl inp plan exmap s w w' :
  show_session inp plan exmap s w = (inl tt, w') ->
  let sid := TrainingSession.id s in
  let f := set_forms inp sid in
  exists ex_id pre post,
    Py.dict_get opt_string_eqb (f_ex_name f) exmap = Some ex_id
    /\ store w' = (if pressed inp (Anadir_serie sid)
                   then fst (insert_set_prescription (store w)
                               (new_set_prescription sid ex_id f))
                   else store w)
    /\ session_state w' = session_state w
    /\ screen w'
       = screen w
         ++ pre
         ++ [ one_rm_field sid
                (one_rm_default
                   (get_latest_one_rm (store w) (get_client_id_from_plan plan) ex_id));
              load_field sid (suggested_load (f_pct f) (f_one_rm_input f));
              suggestion (suggested_load (f_pct f) (f_one_rm_input f))
                         (f_one_rm_input f) (f_pct f) ]
         ++ post
         ++ [ session_total (session_sum (store w') sid) ]
    /\ totals pre = [] /\ totals post = [].
Proof.
  intros H sid f. unfold show_session in H. fold sid in H. fold f in H.
  step H.
  apply bind_inl in H. destruct H as (x1 & w1 & Hnotes & H).
  assert (Hcap : exists cap, w1 = mkWorld (store w) (session_state w)
                                          ((screen w ++ [session_heading
                                                           (TrainingSession.date s)
                                                           (TrainingSession.focus s)])
                                             ++ cap)
                             /\ totals cap = []).
  { apply when_inl in Hnotes. destruct Hnotes as [[_ Hn] | [_ ->]].
    - apply st_inl in Hn. subst w1. cbn. eexists. split; reflexivity.
    - exists []. cbn. rewrite app_nil_r. split; reflexivity. }
  destruct Hcap as (cap & -> & Hcap). clear Hnotes.
  step H. step H as ex_id Hex. step H. step H. step H. step H.
  apply bind_inl in H. destruct H as (x2 & w2 & Hadd & H).
  cbn [store session_state screen] in Hadd, H.
  set (w0 := mkWorld (store w) (session_state w) _) in Hadd.
  assert (Hpost : exists post,
             w2 = mkWorld (if pressed inp (Anadir_serie sid)
                           then fst (insert_set_prescription (store w)
                                       (new_set_prescription sid ex_id f))
                           else store w)
                          (session_state w) (screen w0 ++ post)
             /\ totals post = []).
  { apply when_inl in Hadd.
    destruct Hadd as [[Hp Hadd] | [Hp ->]]; rewrite Hp.
    - step Hadd. apply st_inl in Hadd. subst w2. cbn.
      exists [success "Serie añadida"]. split; reflexivity.
    - exists []. cbn. rewrite app_nil_r. split; reflexivity. }
  destruct Hpost as (post & -> & Hpost). clear Hadd.
  step H.
  apply bind_inl in H. destruct H as (total & w3 & Hfold & H).
  apply st_inl in H. subst w'.
  apply fold_write_set_inl in Hfold.
  destruct Hfold as (-> & Hs & Hu & lines & Hl & Ht).
  cbn in Hs, Hu, Hl. cbn [store session_state screen].
  exists ex_id, ([session_heading (TrainingSession.date s) (TrainingSession.focus s)]
                  ++ cap ++ [session_selectbox sid (Py.dict_keys exmap)]),
         (post ++ lines).
  split; [exact Hex |]. split; [exact Hs |]. split; [exact Hu |].
  split.
  - rewrite Hl, Hs. unfold session_sum, Py.fsum. rewrite fsum_map_tonnage.
    rewrite <- !app_assoc. reflexivity.
  - split.
    + rewrite !totals_app, Hcap. reflexivity.
    + rewrite totals_app, Hpost, Ht. reflexivity.
Qed.

(** *** The loop over the sessions of a plan *)

Lemma place_perm_any {A} (key : A -> option Z) before x l :
  Permutation (x :: l) (place key before x l).
Proof.
  induction l as [| y l IH]; cbn.
  - apply Permutation_refl.
  - destruct (before (key x) (key y)).
    + apply Permutation_refl.
    + eapply perm_trans; [apply perm_swap | apply perm_skip, IH].
Qed.

Lemma order_by_perm {A} (key : A -> option Z) before l :
  Permutation l (order_by key before l).
Proof.
  induction l as [| x l IH]; cbn.
  - apply perm_nil.
  - eapply perm_trans; [apply perm_skip, IH | apply place_perm_any].
Qed.

Lemma NoDup_map_filter {A B} (f : A -> B) p l :
  NoDup (map f l) -> NoDup (map f (filter p l)).
Proof.
  induction l as [| x l IH]; cbn; intros H; [constructor |].
  inversion H as [| ? ? Hx Hl]; subst.
  destruct (p x); cbn; [| apply IH, Hl].
  constructor; [| apply IH, Hl].
  intros Hin. apply Hx. apply in_map_iff in Hin.
  destruct Hin as (y & Hy & Hin). apply filter_In in Hin.
  apply in_map_iff. exists y. tauto.
Qed.

Lemma sessions_of_plan_ids_unique db pid :
  session_ids_unique db ->
  NoDup (map TrainingSession.id (sessions_of_plan db pid)).
Proof.
  unfold session_ids_unique, sessions_of_plan, order_by_asc. intros H.
  eapply Permutation_NoDup.
  - apply Permutation_map, order_by_perm.
  - apply NoDup_map_filter, H.
Qed.

Lemma fold_max_ge l : forall a, a <= fold_left Z.max l a.
Proof.
  induction l as [| x l IH]; cbn; intros a; [lia |].
  specialize (IH (Z.max a x)). lia.
Qed.

Lemma fold_max_bound l : forall a i, In i l -> i <= fold_left Z.max l a.
Proof.
  induction l as [| x l IH]; cbn; intros a i Hin; [contradiction |].
  destruct Hin as [-> | Hin]; [| apply IH, Hin].
  pose proof (fold_max_ge l (Z.max a i)). lia.
Qed.

Lemma next_id_fresh ids : ~ In (next_id ids) ids.
Proof.
  destruct ids as [| a l]; cbn; [tauto |].
  intros [H | H].
  - pose proof (fold_max_ge l a). lia.
  - pose proof (fold_max_bound l a _ H). lia.
Qed.

Lemma insert_training_session_ids_unique db row :
  (forall id, TrainingSession.id (row id) = id) ->
  session_ids_unique db ->
  session_ids_unique (fst (insert_training_session db row)).
Proof.
  unfold session_ids_unique. intros Hid H. cbn.
  rewrite map_app. cbn. rewrite Hid.
  apply NoDup_app; [exact H | constructor; [tauto | constructor] |].
  intros i Hi [<- | []]. exact (next_id_fresh _ Hi).
Qed.



Lemma adds_sets_sessions ids db db' :
  adds_sets ids db db' -> training_sessions db' = training_sessions db.
Proof. intros (e & -> & _). reflexivity. Qed.




(** A completed render of the sessions page: the part before the loop
    and the loop. *)
Lemma page_sessions_split isoformat inp w w' :
  page_sessions isoformat inp w = (inl tt, w') ->
  (training_plans (store w) = []
   /\ store w' = store w /\ session_state w' = session_state w
   /\ totals (screen w') = totals (screen w))
  \/ exists plan w1,
       In plan (training_plans (store w))
       /\ store w1 = (if pressed inp Anadir_sesion
                      then fst (insert_training_session (store w)
                                  (new_training_session plan inp))
                      else store w)
       /\ session_state w1 = session_state w
       /\ totals (screen w1) = totals (screen w)
       /\ for_each (sessions_of_plan (store w1) (TrainingPlan.id plan))
                   (show_session inp plan (exmap_of (exercises (store w1)))) w1
          = (inl tt, w').
Proof.
  intros H. unfold page_sessions in H.
  step H. step H. cbn [store session_state screen] in H.
  destruct (training_plans (store w)) as [| p0 plans] eqn:Eplans.
  - left. apply st_inl in H. subst w'. cbn.
    rewrite !totals_app. cbn. rewrite !app_nil_r. auto.
  - right. rewrite <- Eplans in H.
    step H. step H as pid Hpid. step H as found Hfound. subst found.
    step H as plan Hplan. step H.
    apply bind_inl in H. destruct H as (x1 & w1 & Hadd & H).
    cbn [store session_state screen] in Hadd, H.
    set (w0 := mkWorld (store w) (session_state w) _) in Hadd.
    assert (Hw1 : exists post,
               w1 = mkWorld (if pressed inp Anadir_sesion
                             then fst (insert_training_session (store w)
                                         (new_training_session plan inp))
                             else store w)
                            (session_state w) (screen w0 ++ post)
               /\ totals post = []).
    { apply when_inl in Hadd.
      destruct Hadd as [[Hp Hadd] | [Hp ->]]; rewrite Hp.
      - step Hadd. apply st_inl in Hadd. subst w1. cbn.
        eexists. split; reflexivity.
      - exists []. cbn. rewrite app_nil_r. split; reflexivity. }
    destruct Hw1 as (post & -> & Hpost). clear Hadd.
    step H. step H. cbn [store session_state screen] in H.
    exists plan.
    exists (mkWorld (if pressed inp Anadir_sesion
                     then fst (insert_training_session (store w)
                                 (new_training_session plan inp))
                     else store w)
                    (session_state w) (screen w0 ++ post)).
    split.
    { cbn in Hplan. apply find_some in Hplan. rewrite Eplans in Hplan.
      apply Hplan. }
    split; [| split; [| split; [| exact H]]]; cbn [store session_state screen].
    + reflexivity.
    + reflexivity.
    + unfold w0. cbn [screen]. rewrite !totals_app, Hpost. cbn.
      rewrite !app_nil_r. reflexivity.
Qed.




(** *** Effects of the actions *)

Lemma same_data_refl w : same_data w w.
Proof. split; reflexivity. Qed.

Lemma same_data_trans w1 w2 w3 :
  same_data w1 w2 -> same_data w2 w3 -> same_data w1 w3.
Proof. unfold same_data. intros [] []. split; congruence. Qed.

Lemma shows_refl P w : shows P w w.
Proof. exists []. split; [symmetry; apply app_nil_r | constructor]. Qed.

Lemma shows_trans P w1 w2 w3 : shows P w1 w2 -> shows P w2 w3 -> shows P w1 w3.
Proof.
  intros (n1 & E1 & F1) (n2 & E2 & F2). exists (n1 ++ n2). split.
  - rewrite E2, E1. symmetry. apply app_assoc.
  - apply Forall_app. auto.
Qed.

Lemma grows_refl {A} (l : list A) : grows l l.
Proof. exists []. symmetry. apply app_nil_r. Qed.

Lemma grows_trans {A} (l1 l2 l3 : list A) : grows l1 l2 -> grows l2 l3 -> grows l1 l3.
Proof. intros (a & ->) (b & ->). exists (a ++ b). symmetry. apply app_assoc. Qed.

Lemma grows_app {A} (l more : list A) : grows l (l ++ more).
Proof. exists more. reflexivity. Qed.

Lemma extends_refl db : extends db db.
Proof. repeat split; apply grows_refl. Qed.

Lemma extends_trans db1 db2 db3 : extends db1 db2 -> extends db2 db3 -> extends db1 db3.
Proof.
  unfold extends. intros (a1 & a2 & a3 & a4 & a5 & a6 & a7) (b1 & b2 & b3 & b4 & b5 & b6 & b7).
  repeat split; eapply grows_trans; eassumption.
Qed.

Lemma store_extends_refl w : store_extends w w.
Proof. apply extends_refl. Qed.

Lemma store_extends_trans w1 w2 w3 :
  store_extends w1 w2 -> store_extends w2 w3 -> store_extends w1 w3.
Proof. apply extends_trans. Qed.

Create HintDb rel.

#[local] Hint Resolve same_data_refl same_data_trans shows_refl shows_trans
  store_extends_refl store_extends_trans : rel.

Lemma effect_when_false (R : world -> world -> Prop) (m : script unit) :
  (forall w, R w w) -> effect R (when false m).
Proof. intros Hr w r w' H. inversion H; subst. apply Hr. Qed.

Lemma effect_st_same_data e : effect same_data (st e).
Proof. intros w r w' H. inversion H; subst. split; reflexivity. Qed.

Lemma effect_st_shows (P : ui -> Prop) e : P e -> effect (shows P) (st e).
Proof.
  intros He w r w' H. inversion H; subst. exists [e]. split; [reflexivity |].
  constructor; [exact He | constructor].
Qed.

Lemma effect_put_store_shows P db : effect (shows P) (put_store db).
Proof.
  intros w r w' H. inversion H; subst. exists [].
  split; [symmetry; apply app_nil_r | constructor].
Qed.

Lemma effect_put_session_shows P u : effect (shows P) (put_session u).
Proof.
  intros w r w' H. inversion H; subst. exists [].
  split; [symmetry; apply app_nil_r | constructor].
Qed.

Lemma effect_commit_shows {A} P (ins : DB -> DB * A) : effect (shows P) (commit ins).
Proof.
  intros w r w' H. inversion H; subst. exists [].
  split; [symmetry; apply app_nil_r | constructor].
Qed.

Lemma effect_st_extends e : effect store_extends (st e).
Proof. intros w r w' H. inversion H; subst. apply extends_refl. Qed.

Lemma effect_put_session_extends u : effect store_extends (put_session u).
Proof. intros w r w' H. inversion H; subst. apply extends_refl. Qed.

Lemma effect_commit_extends {A} (ins : DB -> DB * A) :
  (forall db, extends db (fst (ins db))) -> effect store_extends (commit ins).
Proof. intros Hins w r w' H. inversion H; subst. apply Hins. Qed.

(** Walk through a script, leaving the obligations of its actions. *)
Ltac effect_step :=
  lazymatch goal with
  | |- effect _ (bind _ _) => apply effect_bind; [solve [eauto with rel] | | intros ]
  | |- effect _ (ret _) => apply effect_ret; solve [auto with rel]
  | |- effect _ (raise _) => apply effect_raise; solve [auto with rel]
  | |- effect _ st_stop => apply effect_stop; solve [auto with rel]
  | |- effect _ (query _) => apply effect_query; solve [auto with rel]
  | |- effect _ get_session => apply effect_get_session; solve [auto with rel]
  | |- effect _ (expect _ _) => apply effect_expect; solve [auto with rel]
  | |- effect _ (when false _) => apply effect_when_false; solve [auto with rel]
  | |- effect _ (when _ _) => apply effect_when; [solve [auto with rel] | ]
  | |- effect _ (for_each _ _) =>
      apply effect_for_each; [solve [auto with rel] | solve [eauto with rel] | intros ]
  | |- effect _ (map_m _ _) =>
      apply effect_map_m; [solve [auto with rel] | solve [eauto with rel] | intros ]
  | |- effect _ (fold_m _ _ _) =>
      apply effect_fold_m; [solve [auto with rel] | solve [eauto with rel] | intros ]
  | |- effect same_data (st _) => apply effect_st_same_data
  | |- effect store_extends (st _) => apply effect_st_extends
  | |- effect store_extends (put_session _) => apply effect_put_session_extends
  | |- effect (shows _) (st _) => apply effect_st_shows
  | |- effect (shows _) (put_store _) => apply effect_put_store_shows
  | |- effect (shows _) (put_session _) => apply effect_put_session_shows
  | |- effect (shows _) (commit _) => apply effect_commit_shows
  | |- effect _ (match ?x with _ => _ end) => destruct x
  end.

Ltac effects := repeat effect_step.

(** *** Suggested load *)





(** *** Dicts *)

Section DictFacts.
Context {K V : Type} (eqb : K -> K -> bool).
Hypothesis eqb_eq : forall a b, eqb a b = true <-> a = b.

Lemma dict_get_set k k' (v : V) d :
  Py.dict_get eqb k (Py.dict_set eqb k' v d)
  = if eqb k k' then Some v else Py.dict_get eqb k d.
Proof.
  induction d as [| [k1 v1] d IH]; cbn; [reflexivity |].
  destruct (eqb k' k1) eqn:E1; cbn.
  - apply eqb_eq in E1. subst k1. destruct (eqb k k'); reflexivity.
  - destruct (eqb k k1) eqn:E2.
    + destruct (eqb k k') eqn:E3; [| reflexivity].
      apply eqb_eq in E2, E3. subst. 
      assert (eqb k1 k1 = true) by (apply eqb_eq; reflexivity). congruence.
    + exact IH.
Qed.

Lemma dict_get_fold k (v : V) kvs : forall d,
  Py.dict_get eqb k (fold_left (fun d kv => Py.dict_set eqb (fst kv) (snd kv) d) kvs d)
  = Some v ->
  In (k, v) kvs \/ Py.dict_get eqb k d = Some v.
Proof.
  induction kvs as [| [k1 v1] kvs IH]; cbn; intros d H; [right; exact H |].
  apply IH in H. destruct H as [H | H]; [left; right; exact H |].
  rewrite dict_get_set in H. destruct (eqb k k1) eqn:E; [| right; exact H].
  apply eqb_eq in E. inversion H; subst. left. left. reflexivity.
Qed.

(** A value read from a dict was put there by one of the pairs. *)
Lemma dict_get_of k (v : V) kvs :
  Py.dict_get eqb k (Py.dict_of eqb kvs) = Some v -> In (k, v) kvs.
Proof.
  intros H. apply dict_get_fold in H. destruct H as [H | H]; [exact H | discriminate H].
Qed.
End DictFacts.

Lemma string_eqb_eq a b : String.eqb a b = true <-> a = b.
Proof. apply String.eqb_eq. Qed.

Lemma opt_string_eqb_eq a b : opt_string_eqb a b = true <-> a = b.
Proof.
  destruct a as [x |], b as [y |]; cbn; split; intros H;
    try discriminate; try reflexivity.
  - apply String.eqb_eq in H. congruence.
  - inversion H; subst. apply String.eqb_refl.
Qed.

(** *** History of tests *)

Lemma sorted_app_newer {A} (key : A -> option Z) l1 : forall l2,
  StronglySorted (newer_first key) (l1 ++ l2) ->
  forall a b, In a l1 -> In b l2 -> newer_first key a b.
Proof.
  induction l1 as [| x l1 IH]; cbn; intros l2 H a b Ha Hb; [contradiction |].
  inversion H as [| ? ? Hs Hall]; subst.
  destruct Ha as [<- | Ha].
  - rewrite Forall_forall in Hall. apply Hall, in_or_app. right. exact Hb.
  - eapply IH; eassumption.
Qed.

Lemma recent_tests_facts db client_id :
  let shown := recent_tests db client_id in
  (List.length shown <= 20)%nat
  /\ StronglySorted (newer_first StrengthTest.date) shown
  /\ (forall t, In t shown ->
        In t db.(strength_tests) /\ StrengthTest.client_id t = Some client_id)
  /\ (forall t, In t db.(strength_tests) ->
        StrengthTest.client_id t = Some client_id ->
        In t shown
        \/ (List.length shown = 20%nat
            /\ forall u, In u shown ->
                 date_le (StrengthTest.date t) (StrengthTest.date u) = true)).
Proof.
  unfold recent_tests, limit.
  set (mine := filter _ (strength_tests db)).
  pose proof (order_by_desc_perm StrengthTest.date mine) as Hperm.
  pose proof (order_by_desc_sorted StrengthTest.date mine) as Hsort.
  set (L := order_by_desc StrengthTest.date mine) in *.
  cbv zeta. split; [apply firstn_le_length |].
  split; [apply sorted_firstn, Hsort |]. split.
  - intros t Ht. apply in_firstn in Ht.
    apply (Permutation_in _ (Permutation_sym Hperm)) in Ht.
    apply filter_In in Ht. destruct Ht as [Hin Hc].
    apply col_eq_true in Hc. auto.
  - intros t Hin Hc.
    assert (Ht : In t L).
    { apply (Permutation_in _ Hperm). apply filter_In.
      split; [exact Hin | apply col_eq_true, Hc]. }
    rewrite <- (firstn_skipn 20 L) in Ht, Hsort.
    apply in_app_or in Ht. destruct Ht as [Ht | Ht]; [left; exact Ht | right].
    split.
    + apply firstn_length_le.
      destruct (Nat.le_gt_cases 20 (List.length L)) as [Hle | Hgt]; [exact Hle |].
      rewrite skipn_all2 in Ht by lia. contradiction.
    + intros u Hu. exact (sorted_app_newer _ _ _ Hsort u t Hu Ht).
Qed.

Lemma history_app a b : history (a ++ b) = history a ++ history b.
Proof. unfold history. apply flat_map_app. Qed.

Lemma write_test_inl t w w' :
  write_test t w = (inl tt, w') ->
  store w' = store w /\ session_state w' = session_state w
  /\ exists line, annotated (store w) t line
                  /\ screen w' = screen w ++ [test_line (fst (fst line)) (snd (fst line)) (snd line)].
Proof.
  unfold write_test. intros H.
  step H. step H as e He. step H as r Hr. apply st_inl in H. subst w'.
  cbn. split; [reflexivity |]. split; [reflexivity |].
  exists (StrengthTest.date t, Exercise.name e, r). split; [| reflexivity].
  exists e, r. auto.
Qed.

Lemma for_each_write_test_inl tests : forall w w',
  for_each tests write_test w = (inl tt, w') ->
  store w' = store w /\ session_state w' = session_state w
  /\ exists lines, history (screen w') = history (screen w) ++ lines
                   /\ Forall2 (annotated (store w)) tests lines.
Proof.
  induction tests as [| t l IH]; cbn [for_each]; intros w w' H.
  - apply ret_inl in H. destruct H as [_ ->].
    split; [reflexivity |]. split; [reflexivity |].
    exists []. split; [symmetry; apply app_nil_r | constructor].
  - apply bind_inl in H. destruct H as ([] & w1 & H1 & H).
    apply write_test_inl in H1. destruct H1 as (Hs1 & Hu1 & line & Hline & Hscr).
    apply IH in H. destruct H as (Hs & Hu & lines & Hh & Hall).
    split; [congruence |]. split; [congruence |].
    exists (line :: lines). split.
    + rewrite Hh, Hscr, history_app. cbn. rewrite <- app_assoc.
      destruct line as [[d n] r]. reflexivity.
    + constructor; [exact Hline |]. rewrite Hs1 in Hall. exact Hall.
Qed.

Lemma Forall2_in_r {A B} (P : A -> B -> Prop) l l' y :
  Forall2 P l l' -> In y l' -> exists x, In x l /\ P x y.
Proof.
  induction 1 as [| a b l l' Hab _ IH]; cbn; [contradiction |].
  intros [<- | Hy].
  - exists a. auto.
  - destruct (IH Hy) as (x & Hx & Hp). exists x. auto.
Qed.

(** The pairs of [client_map]: each is the name of a client's user and
    the id of that client. *)
Lemma client_names_inl clients : forall w named w',
  map_m (fun c =>
           u <- query (fun db => get_by User.id db.(users) (Client.user_id c)) ;;
           u' <- expect AttributeError u ;;
           ret (User.name u', Client.id c)) clients w = (inl named, w') ->
  w' = w
  /\ Forall2 (fun c p =>
                snd p = Client.id c
                /\ exists u, get_by User.id (users (store w)) (Client.user_id c) = Some u
                             /\ fst p = User.name u) clients named.
Proof.
  induction clients as [| c l IH]; cbn [map_m]; intros w named w' H.
  - apply ret_inl in H. destruct H as [-> ->]. split; [reflexivity | constructor].
  - apply bind_inl in H. destruct H as (p & w1 & Hp & H).
    step Hp. step Hp as u Hu. apply ret_inl in Hp. destruct Hp as [-> ->].
    apply bind_inl in H. destruct H as (ps & w2 & Hps & H).
    apply IH in Hps. destruct Hps as [-> Hall].
    apply ret_inl in H. destruct H as [-> ->].
    split; [reflexivity |]. constructor; [| exact Hall].
    split; [reflexivity |]. exists u. split; [exact Hu | reflexivity].
Qed.

Lemma page_strength_tests_full inp w w' :
  page_strength_tests inp w = (inl tt, w') ->
  exists user,
    session_state w = Some user
    /\ session_state w' = session_state w
    /\ let mine := filter (fun c => col_eq (Client.owner_id c) (su_id user))
                          (clients (store w)) in
       ((mine = [] \/ exercises (store w) = [])
        /\ store w' = store w /\ history (screen w') = history (screen w))
       \/ (mine <> [] /\ exercises (store w) <> []
           /\ exists c,
                In c mine
                /\ (exists u, get_by User.id (users (store w)) (Client.user_id c) = Some u
                              /\ User.name u = in_client_name inp)
                /\ (pressed inp Guardar_test = false /\ store w' = store w
                    \/ pressed inp Guardar_test = true
                       /\ exists e,
                            In e (exercises (store w))
                            /\ Exercise.name e = in_ex_name inp
                            /\ store w' = fst (insert_strength_test (store w)
                                                 (new_strength_test (Client.id c)
                                                    (Exercise.id e) inp)))
                /\ exists lines,
                     history (screen w') = history (screen w) ++ lines
                     /\ Forall2 (annotated (store w'))
                                (recent_tests (store w') (Client.id c)) lines).
Proof.
  unfold page_strength_tests. intros H.
  step H. step H. step H as user Huser. step H.
  cbn [store session_state screen] in H.
  exists user. split; [exact Huser |].
  set (mine := filter _ (clients (store w))) in *.
  destruct mine as [| c0 rest] eqn:Emine.
  - apply st_inl in H. subst w'. cbn. split; [reflexivity |]. left.
    split; [left; reflexivity |]. split; [reflexivity |].
    rewrite !history_app. cbn. rewrite !app_nil_r. reflexivity.
  - rewrite <- Emine in H.
    apply bind_inl in H. destruct H as (named & w1 & Hnamed & H).
    apply client_names_inl in Hnamed. destruct Hnamed as [-> Hnamed].
    step H. step H. cbn [store session_state screen] in H.
    destruct (exercises (store w)) as [| e0 exs] eqn:Eexs.
    + apply st_inl in H. subst w'. cbn. split; [reflexivity |]. left.
      split; [right; reflexivity |]. split; [reflexivity |].
      rewrite !history_app. cbn. rewrite !app_nil_r. reflexivity.
    + step H.
      apply bind_inl in H. destruct H as (x1 & w1 & Hsave & H).
      cbn [store session_state screen] in Hsave, H.
      set (w0 := mkWorld (store w) (session_state w) _) in Hsave.
      set (client_map := Py.dict_of String.eqb named) in *.
      assert (Hw1 : exists post,
                 session_state w1 = session_state w
                 /\ screen w1 = screen w0 ++ post /\ history post = []
                 /\ (pressed inp Guardar_test = false /\ store w1 = store w
                     \/ pressed inp Guardar_test = true
                        /\ exists cid eid,
                             Py.dict_get String.eqb (in_client_name inp) client_map
                             = Some cid
                             /\ Py.dict_get opt_string_eqb (in_ex_name inp)
                                            (exmap_of (e0 :: exs))
                                = Some eid
                             /\ store w1 = fst (insert_strength_test (store w)
                                                  (new_strength_test cid eid inp)))).
      { apply when_inl in Hsave.
        destruct Hsave as [[Hp Hsave] | [Hp ->]].
        - step Hsave as cid Hcid. step Hsave as eid Heid. step Hsave.
          apply st_inl in Hsave. subst w1. cbn.
          exists [success "Test guardado"].
          split; [reflexivity |]. split; [reflexivity |]. split; [reflexivity |].
          right. split; [exact Hp |]. exists cid, eid.
          split; [exact Hcid |]. split; [exact Heid | reflexivity].
        - exists []. cbn. rewrite app_nil_r.
          split; [reflexivity |]. split; [reflexivity |]. split; [reflexivity |].
          left. split; [exact Hp | reflexivity]. }
      destruct Hw1 as (post & Hu1 & Hscr1 & Hpost & Hstore). clear Hsave.
      step H. step H as cid Hcid. step H.
      cbn [store session_state screen] in H.
      apply for_each_write_test_inl in H.
      destruct H as (Hs & Hu & lines & Hh & Hall).
      cbn [store session_state screen] in Hs, Hu, Hh, Hall.
      split; [congruence |]. right.
      split; [discriminate |]. split; [discriminate |].
      pose proof (dict_get_of String.eqb string_eqb_eq _ _ _ Hcid) as Hin.
      destruct (Forall2_in_r _ _ _ _ Hnamed Hin) as (c & Hc & Hid & usr & Hu' & Hname).
      cbn in Hid, Hname. subst cid.
      exists c. split; [rewrite <- Emine; exact Hc |].
      split; [exists usr; split; [exact Hu' | symmetry; exact Hname] |]. split.
      * destruct Hstore as [[Hp Hst] | (Hp & cid' & eid & Hcid' & Heid & Hst)].
        -- left. split; [exact Hp | congruence].
        -- right. split; [exact Hp |].
           apply (dict_get_of opt_string_eqb opt_string_eqb_eq) in Heid.
           apply in_map_iff in Heid. destruct Heid as (e & Hpair & Hine).
           inversion Hpair; subst eid. exists e.
           split; [exact Hine |]. split; [first [assumption | reflexivity] |].
           rewrite Hcid in Hcid'. inversion Hcid'; subst cid'. congruence.
      * exists lines. rewrite Hs. split; [| exact Hall].
        rewrite Hh, history_app. cbn. rewrite app_nil_r.
        rewrite Hscr1, history_app, Hpost, app_nil_r.
        unfold w0. cbn [screen]. rewrite !history_app. cbn.
        rewrite !app_nil_r. reflexivity.
Qed.

Lemma page_strength_tests_inl inp w w' :
  page_strength_tests inp w = (inl tt, w') ->
  exists user,
    session_state w = Some user
    /\ session_state w' = session_state w
    /\ let mine := filter (fun c => col_eq (Client.owner_id c) (su_id user))
                          (clients (store w)) in
       ((mine = [] \/ exercises (store w) = [])
        /\ store w' = store w /\ history (screen w') = history (screen w))
       \/ (mine <> [] /\ exercises (store w) <> []
           /\ exists c,
                In c mine
                /\ (exists u, get_by User.id (users (store w)) (Client.user_id c) = Some u
                              /\ User.name u = in_client_name inp)
                /\ (pressed inp Guardar_test = false /\ store w' = store w
                    \/ pressed inp Guardar_test = true
                       /\ exists eid,
                            store w' = fst (insert_strength_test (store w)
                                              (new_strength_test (Client.id c) eid inp)))
                /\ exists lines,
                     history (screen w') = history (screen w) ++ lines
                     /\ Forall2 (annotated (store w'))
                                (recent_tests (store w') (Client.id c)) lines).
Proof.
  intros H. apply page_strength_tests_full in H.
  destruct H as (user & Hu & Hs & H). exists user.
  split; [exact Hu |]. split; [exact Hs |].
  destruct H as [H | (Hm & He & c & Hc & Hn & Hst & Hl)]; [left; exact H | right].
  split; [exact Hm |]. split; [exact He |]. exists c.
  split; [exact Hc |]. split; [exact Hn |]. split; [| exact Hl].
  destruct Hst as [Hst | (Hp & e & _ & _ & Hst)]; [left; exact Hst | right].
  split; [exact Hp |]. exists (Exercise.id e). exact Hst.
Qed.

(** C7.  The history query returns at most 20 tests, newest first, all
    of the chosen client, and leaves out a test of that client only when
    20 tests at least as recent are listed.  A completed render of the
    page adds to the screen one line per such test, in that order, each
    with the name of the test's exercise; the client is the one of the
    signed-in coach whose user carries the chosen name. *)
Theorem history_lists_recent_tests :
  (forall db client_id,
      let shown := recent_tests db client_id in
      (List.length shown <= 20)%nat
      /\ StronglySorted (newer_first StrengthTest.date) shown
      /\ (forall t, In t shown ->
            In t db.(strength_tests) /\ StrengthTest.client_id t = Some client_id)
      /\ (forall t, In t db.(strength_tests) ->
            StrengthTest.client_id t = Some client_id ->
            In t shown
            \/ (List.length shown = 20%nat
                /\ forall u, In u shown ->
                     date_le (StrengthTest.date t) (StrengthTest.date u) = true)))
  /\ (forall inp w w',
        page_strength_tests inp w = (inl tt, w') ->
        history (screen w') = history (screen w)
        \/ exists user c u lines,
             session_state w = Some user
             /\ In c (clients (store w))
             /\ Client.owner_id c = Some (su_id user)
             /\ get_by User.id (users (store w)) (Client.user_id c) = Some u
             /\ User.name u = in_client_name inp
             /\ history (screen w') = history (screen w) ++ lines
             /\ Forall2 (annotated (store w'))
                        (recent_tests (store w') (Client.id c)) lines).
Proof.
  split; [exact recent_tests_facts |].
  intros inp w w' H. apply page_strength_tests_inl in H.
  destruct H as (user & Huser & _ & [(_ & _ & Hh) | (_ & _ & c & Hc & (u & Hu & Hn) & _ & lines & Hh & Hall)]).
  - left. exact Hh.
  - right. apply filter_In in Hc. destruct Hc as [Hc Ho].
    apply col_eq_true in Ho.
    exists user, c, u, lines. auto 10.
Qed.

Lemma history_lists_recent_tests_witness :
  history (screen (snd (page_strength_tests (sample_inputs None Strength_Tests)
                                            sample_world)))
  = [ (Some 738002, Some "Bench Press", 60%float);
      (Some 738001, Some "Back Squat", 100%float) ]
  /\ forall t, In t (recent_tests sample_store 1) ->
               StrengthTest.client_id t = Some 1.
Proof.
  split.
  - destruct (proj2 history_lists_recent_tests
                (sample_inputs None Strength_Tests) sample_world
                (snd (page_strength_tests (sample_inputs None Strength_Tests)
                                          sample_world)) eq_refl)
      as [H | (user & c & u & lines & _ & _ & _ & _ & _ & H & _)];
      reflexivity.
  - intros t Ht.
    apply (proj1 history_lists_recent_tests sample_store 1) in Ht.
    apply Ht.
Defined.

(** *** One click, one row *)

Lemma button_eqb_eq a b : button_eqb a b = true <-> a = b.
Proof.
  destruct a, b; cbn; split; intros H; try discriminate; try reflexivity.
  - apply Z.eqb_eq in H. congruence.
  - inversion H; subst. apply Z.eqb_refl.
Qed.

Lemma pressed_clicked inp b : pressed inp b = true <-> clicked inp = Some b.
Proof.
  unfold pressed. destruct (clicked inp) as [c |].
  - rewrite button_eqb_eq. split; congruence.
  - split; discriminate.
Qed.

Lemma pressed_one inp a b :
  pressed inp a = true -> pressed inp b = true -> a = b.
Proof. rewrite !pressed_clicked. congruence. Qed.

Lemma pressed_other inp a b : pressed inp a = true -> a <> b -> pressed inp b = false.
Proof.
  intros Ha Hne. destruct (pressed inp b) eqn:E; [| reflexivity].
  elim Hne. eapply pressed_one; eassumption.
Qed.

Lemma show_session_store inp plan exmap s w w' :
  show_session inp plan exmap s w = (inl tt, w') ->
  (pressed inp (Anadir_serie (TrainingSession.id s)) = false /\ store w' = store w)
  \/ (pressed inp (Anadir_serie (TrainingSession.id s)) = true
      /\ exists ex_id,
           store w' = fst (insert_set_prescription (store w)
                             (new_set_prescription (TrainingSession.id s) ex_id
                                (set_forms inp (TrainingSession.id s))))).
Proof.
  intros H. apply show_session_inl in H.
  destruct H as (ex_id & pre & post & _ & Hs & _).
  destruct (pressed inp (Anadir_serie (TrainingSession.id s))).
  - right. split; [reflexivity |]. exists ex_id. exact Hs.
  - left. auto.
Qed.

(** The loop adds the row of the one session whose button was clicked,
    and nothing when no listed session has it. *)
Lemma for_each_show_session_store inp plan exmap sessions : forall w w',
  NoDup (map TrainingSession.id sessions) ->
  for_each sessions (show_session inp plan exmap) w = (inl tt, w') ->
  ((forall s, In s sessions ->
      pressed inp (Anadir_serie (TrainingSession.id s)) = false)
   /\ store w' = store w)
  \/ exists s ex_id,
       In s sessions
       /\ pressed inp (Anadir_serie (TrainingSession.id s)) = true
       /\ store w' = fst (insert_set_prescription (store w)
                            (new_set_prescription (TrainingSession.id s) ex_id
                               (set_forms inp (TrainingSession.id s)))).
Proof.
  induction sessions as [| s l IH]; cbn [for_each map]; intros w w' Hnd H.
  - apply ret_inl in H. destruct H as [_ ->]. left. split; [intros s [] | reflexivity].
  - inversion Hnd as [| ? ? Hs Hl]; subst.
    apply bind_inl in H. destruct H as ([] & w1 & H1 & H).
    apply show_session_store in H1. apply IH in H; [| exact Hl].
    destruct H1 as [[Hp1 Hs1] | (Hp1 & ex_id & Hs1)].
    + destruct H as [[Hno Hst] | (s' & ex_id & Hin & Hp & Hst)].
      * left. split; [| congruence].
        intros s' [<- | Hin]; [exact Hp1 | apply Hno, Hin].
      * right. exists s', ex_id. split; [right; exact Hin |].
        split; [exact Hp |]. rewrite Hst, Hs1. reflexivity.
    + right. exists s, ex_id. split; [left; reflexivity |]. split; [exact Hp1 |].
      destruct H as [[_ Hst] | (s' & ex' & Hin & Hp & _)]; [congruence |].
      exfalso. apply Hs.
      assert (E : Anadir_serie (TrainingSession.id s) = Anadir_serie (TrainingSession.id s'))
        by (eapply pressed_one; eassumption).
      inversion E as [E']. rewrite E'. apply in_map, Hin.
Qed.

Lemma sessions_of_plan_in db pid s :
  In s (sessions_of_plan db pid) <->
  In s db.(training_sessions) /\ TrainingSession.plan_id s = Some pid.
Proof.
  unfold sessions_of_plan, order_by_asc. split.
  - intros H. apply (Permutation_in _ (Permutation_sym (order_by_perm _ _ _))) in H.
    apply filter_In in H. rewrite col_eq_true in H. exact H.
  - intros H. apply (Permutation_in _ (order_by_perm _ _ _)).
    apply filter_In. rewrite col_eq_true. exact H.
Qed.

(** What a completed render of the sessions page does to the store. *)
Lemma page_sessions_store isoformat inp w w' :
  session_ids_unique (store w) ->
  page_sessions isoformat inp w = (inl tt, w') ->
  (training_plans (store w) = [] /\ store w' = store w)
  \/ exists plan,
       In plan (training_plans (store w))
       /\ ((pressed inp Anadir_sesion = true
            /\ store w' = fst (insert_training_session (store w)
                                 (new_training_session plan inp)))
           \/ (pressed inp Anadir_sesion = false
               /\ (forall s, In s (sessions_of_plan (store w) (TrainingPlan.id plan)) ->
                     pressed inp (Anadir_serie (TrainingSession.id s)) = false)
               /\ store w' = store w)
           \/ (exists s ex_id,
                 In s (sessions_of_plan (store w) (TrainingPlan.id plan))
                 /\ pressed inp (Anadir_serie (TrainingSession.id s)) = true
                 /\ store w' = fst (insert_set_prescription (store w)
                                      (new_set_prescription (TrainingSession.id s) ex_id
                                         (set_forms inp (TrainingSession.id s)))))).
Proof.
  intros Huniq H. apply page_sessions_split in H.
  destruct H as [(Hp & Hs & _) | (plan & w1 & Hin & Hs1 & _ & _ & H)];
    [left; auto | right].
  exists plan. split; [exact Hin |].
  assert (Hq : session_ids_unique (store w1)).
  { rewrite Hs1. destruct (pressed inp Anadir_sesion); [| exact Huniq].
    apply insert_training_session_ids_unique; [reflexivity | exact Huniq]. }
  apply for_each_show_session_store in H;
    [| apply sessions_of_plan_ids_unique, Hq].
  destruct (pressed inp Anadir_sesion) eqn:Ep.
  - left. split; [reflexivity |].
    destruct H as [[_ Hst] | (s & ex_id & _ & Hp & _)]; [congruence |].
    pose proof (pressed_one _ _ _ Ep Hp) as E. discriminate E.
  - right. rewrite Hs1 in H.
    destruct H as [[Hno Hst] | (s & ex_id & Hs & Hp & Hst)].
    + left. split; [reflexivity |]. split; [exact Hno | congruence].
    + right. exists s, ex_id. split; [exact Hs |]. split; [exact Hp | exact Hst].
Qed.

(** *** Rows are only ever added *)

Lemma extends_insert_user db row db' u :
  insert_user db row = Some (db', u) -> extends db db'.
Proof.
  unfold insert_user. destruct (existsb _ _); intros H; inversion H; subst.
  repeat split; cbn; try apply grows_refl. apply grows_app.
Qed.

Lemma extends_insert_exercise db row db' e :
  insert_exercise db row = Some (db', e) -> extends db db'.
Proof.
  unfold insert_exercise. destruct (existsb _ _); intros H; inversion H; subst.
  repeat split; cbn; try apply grows_refl. apply grows_app.
Qed.

Lemma extends_insert_exercises rows : forall db db',
  insert_exercises db rows = Some db' -> extends db db'.
Proof.
  induction rows as [| row rows IH]; cbn; intros db db' H.
  - inversion H; subst. apply extends_refl.
  - destruct (insert_exercise db row) as [[db1 e] |] eqn:E; [| discriminate H].
    eapply extends_trans; [eapply extends_insert_exercise; exact E | apply IH, H].
Qed.

Lemma extends_insert_client db row : extends db (fst (insert_client db row)).
Proof. repeat split; cbn; try apply grows_refl. apply grows_app. Qed.

Lemma extends_insert_training_plan db row :
  extends db (fst (insert_training_plan db row)).
Proof. repeat split; cbn; try apply grows_refl. apply grows_app. Qed.

Lemma extends_insert_training_session db row :
  extends db (fst (insert_training_session db row)).
Proof. repeat split; cbn; try apply grows_refl. apply grows_app. Qed.

Lemma extends_insert_set_prescription db row :
  extends db (fst (insert_set_prescription db row)).
Proof. repeat split; cbn; try apply grows_refl. apply grows_app. Qed.

Lemma extends_insert_strength_test db row :
  extends db (fst (insert_strength_test db row)).
Proof. repeat split; cbn; try apply grows_refl. apply grows_app. Qed.

Lemma extends_seed_users clk db db' us :
  seed_users clk db = Some (db', us) -> extends db db'.
Proof.
  unfold seed_users.
  destruct (insert_user db _) as [[db1 coach] |] eqn:E1; [| discriminate].
  destruct (insert_user db1 _) as [[db2 cu] |] eqn:E2; [| discriminate].
  intros H. inversion H; subst.
  eapply extends_trans; eapply extends_insert_user; eassumption.
Qed.

Lemma extends_seed_catalog coach cu db db' c :
  seed_catalog coach cu db = Some (db', c) -> extends db db'.
Proof.
  unfold seed_catalog. cbn [insert_client].
  destruct (insert_exercises _ _) as [db2 |] eqn:E; [| discriminate].
  intros H. inversion H; subst.
  eapply extends_trans; [| eapply extends_insert_exercises; exact E].
  apply (extends_insert_client db (demo_client cu coach)).
Qed.

Lemma effect_commit_or_fail_extends {A} (tx : DB -> option (DB * A)) :
  (forall db db' a, tx db = Some (db', a) -> extends db db') ->
  effect store_extends (commit_or_fail tx).
Proof.
  intros Htx w r w'. unfold commit_or_fail, bind, query, expect.
  destruct (tx (store w)) as [[db' a] |] eqn:E; cbn; intros H; inversion H; subst.
  - eapply Htx. exact E.
  - apply extends_refl.
Qed.

Lemma init_demo_data_extends clk : effect store_extends (init_demo_data clk).
Proof.
  unfold init_demo_data. effects.
  - apply effect_commit_or_fail_extends. intros db db' a. apply extends_seed_users.
  - apply effect_commit_or_fail_extends. intros db db' c. apply extends_seed_catalog.
  - apply effect_commit_extends. intros db. apply extends_insert_training_plan.
Qed.

Lemma app_extends isoformat inp :
  pressed inp Reset_database = false ->
  effect store_extends (app isoformat inp).
Proof.
  intros Hreset. unfold app, prologue.
  apply effect_bind; [eauto with rel | | intros _].
  - apply effect_bind; [eauto with rel | apply init_demo_data_extends | intros _].
    unfold sidebar, gate, require_auth, login. effects.
  - destruct (nav inp); cbn [render].
    + unfold page_strength_tests, write_test. effects.
      apply effect_commit_extends. intros db. apply extends_insert_strength_test.
    + unfold page_sessions, show_session, write_set. effects.
      * apply effect_commit_extends. intros db. apply extends_insert_training_session.
      * apply effect_commit_extends. intros db. apply extends_insert_set_prescription.
    + unfold page_diagnostics. effects.
    + unfold page_settings. rewrite Hreset. effects.
Qed.

(** C9.  A completed render of the tests page leaves the store as it
    was or, on a click of its button, with exactly one row appended to
    [strength_tests]; a completed render of the sessions page leaves it
    as it was or with exactly one row appended to [training_sessions]
    (click on "add session") or to [set_prescriptions] (click on "add
    set" of a listed session); a click that finds its form is never
    lost.  Whatever a run of the script does and however it ends, unless
    "Reset database" was clicked every row of every table is still
    there, unchanged and in place. *)
Theorem form_submissions_insert_one_row :
  (forall inp w w',
      page_strength_tests inp w = (inl tt, w') ->
      (pressed inp Guardar_test = true
       /\ exists t, store w' = with_strength_tests (store w)
                                 (strength_tests (store w) ++ [t]))
      \/ (store w' = store w
          /\ (pressed inp Guardar_test = false
              \/ exists user,
                   session_state w = Some user
                   /\ (filter (fun c => col_eq (Client.owner_id c) (su_id user))
                              (clients (store w)) = []
                       \/ exercises (store w) = []))))
  /\ (forall isoformat inp w w',
        session_ids_unique (store w) ->
        page_sessions isoformat inp w = (inl tt, w') ->
        (pressed inp Anadir_sesion = true
         /\ exists s, store w' = with_training_sessions (store w)
                                   (training_sessions (store w) ++ [s]))
        \/ (exists k sp,
              pressed inp (Anadir_serie k) = true
              /\ SetPrescription.session_id sp = Some k
              /\ store w' = with_set_prescriptions (store w)
                              (set_prescriptions (store w) ++ [sp]))
        \/ (store w' = store w
            /\ (training_plans (store w) = []
                \/ exists plan,
                     In plan (training_plans (store w))
                     /\ pressed inp Anadir_sesion = false
                     /\ forall s,
                          In s (store w).(training_sessions) ->
                          TrainingSession.plan_id s = Some (TrainingPlan.id plan) ->
                          pressed inp (Anadir_serie (TrainingSession.id s)) = false)))
  /\ (forall isoformat inp w r w',
        pressed inp Reset_database = false ->
        app isoformat inp w = (r, w') ->
        extends (store w) (store w')).
Proof.
  split; [| split].
  - intros inp w w' H. apply page_strength_tests_inl in H.
    destruct H as (user & Huser & _ & [(Hnone & Hs & _) | (_ & _ & c & _ & _ & Hst & _)]).
    + right. split; [exact Hs |]. right. exists user. auto.
    + destruct Hst as [[Hp Hs] | (Hp & eid & Hs)].
      * right. auto.
      * left. split; [exact Hp |]. eexists. exact Hs.
  - intros isoformat inp w w' Hu H.
    destruct (page_sessions_store _ _ _ _ Hu H)
      as [[Hp Hs] | (plan & Hin & [(Hp & Hs) | [(Hp & Hno & Hs) | (s & ex_id & Hs & Hp & Hst)]])].
    + right. right. auto.
    + left. split; [exact Hp |]. eexists. exact Hs.
    + right. right. split; [exact Hs |]. right. exists plan.
      split; [exact Hin |]. split; [exact Hp |].
      intros s Hs1 Hs2. apply Hno. apply sessions_of_plan_in. auto.
    + right. left. exists (TrainingSession.id s). eexists.
      split; [exact Hp |]. split; [| exact Hst]. reflexivity.
  - intros isoformat inp w r w' Hreset H.
    exact (app_extends isoformat inp Hreset w r w' H).
Qed.

Lemma form_submissions_insert_one_row_witness :
  session_ids_unique sample_store
  /\ (exists sp,
        SetPrescription.session_id sp = Some 1
        /\ store (snd (page_sessions sample_isoformat
                                     (sample_inputs (Some (Anadir_serie 1)) Sessions)
                                     sample_world))
           = with_set_prescriptions sample_store
                                    (set_prescriptions sample_store ++ [sp]))
  /\ extends sample_store
             (store (snd (app sample_isoformat
                              (sample_inputs (Some Guardar_test) Strength_Tests)
                              sample_world))).
Proof.
  assert (Hu : session_ids_unique sample_store).
  { repeat constructor. cbn. tauto. }
  split; [exact Hu |]. split.
  - assert (Hrun : page_sessions sample_isoformat
                     (sample_inputs (Some (Anadir_serie 1)) Sessions) sample_world
                   = (inl tt, snd (page_sessions sample_isoformat
                                     (sample_inputs (Some (Anadir_serie 1)) Sessions)
                                     sample_world))).
    { vm_compute. reflexivity. }
    destruct (proj1 (proj2 form_submissions_insert_one_row) sample_isoformat
                (sample_inputs (Some (Anadir_serie 1)) Sessions) sample_world _ Hu Hrun)
      as [[Hp _] | [(k & sp & Hp & Hk & Hs) | [Hs _]]].
    + discriminate Hp.
    + exists sp. split; [| exact Hs].
      apply pressed_clicked in Hp. inversion Hp; subst k. exact Hk.
    + exfalso. apply (f_equal (fun db => List.length (set_prescriptions db))) in Hs.
      vm_compute in Hs. discriminate Hs.
  - apply (proj2 (proj2 form_submissions_insert_one_row) sample_isoformat
             (sample_inputs (Some Guardar_test) Strength_Tests) sample_world
             (fst (app sample_isoformat
                       (sample_inputs (Some Guardar_test) Strength_Tests)
                       sample_world))).
    + reflexivity.
    + apply surjective_pairing.
Defined.

(** *** The gate *)

Lemma init_demo_data_on_seedable clk w :
  seedable (store w) ->
  exists w1,
    init_demo_data clk w = (inl tt, w1)
    /\ users (store w1) <> []
    /\ session_state w1 = session_state w
    /\ screen w1 = screen w.
Proof.
  intros [He | Hu].
  - destruct w as [db session scr]. cbn in He. subst db.
    rewrite init_demo_data_seeds. eexists. split; [reflexivity |].
    cbn. split; [discriminate | auto].
  - exists w. rewrite (init_demo_data_skips clk w Hu). auto.
Qed.

Lemma grows_nonempty {A} (l l' : list A) : grows l l' -> l <> [] -> l' <> [].
Proof. intros (more & ->) H. destruct l; [contradiction | discriminate]. Qed.

Lemma sidebar_extends inp : effect store_extends (sidebar inp).
Proof. unfold sidebar. effects. Qed.

Lemma require_auth_extends inp : effect store_extends (require_auth inp).
Proof. unfold require_auth, login. effects. Qed.

Lemma render_extends isoformat p inp :
  (p = Settings -> pressed inp Reset_database = false) ->
  effect store_extends (render isoformat p inp).
Proof.
  intros Hreset. destruct p; cbn [render].
  - unfold page_strength_tests, write_test. effects.
    apply effect_commit_extends. intros db. apply extends_insert_strength_test.
  - unfold page_sessions, show_session, write_set. effects.
    + apply effect_commit_extends. intros db. apply extends_insert_training_session.
    + apply effect_commit_extends. intros db. apply extends_insert_set_prescription.
  - unfold page_diagnostics. effects.
  - unfold page_settings. rewrite (Hreset eq_refl). effects.
Qed.

Lemma render_keeps_users isoformat inp w r w' :
  users (store w) <> [] ->
  render isoformat (nav inp) inp w = (r, w') ->
  users (store w') <> [].
Proof.
  intros Hu H.
  assert (Hext : (nav inp = Settings -> pressed inp Reset_database = false) ->
                 users (store w') <> []).
  { intros Hreset.
    destruct (render_extends isoformat (nav inp) inp Hreset w r w' H) as [Hg _].
    exact (grows_nonempty _ _ Hg Hu). }
  destruct (pressed inp Reset_database) eqn:Ep; [| apply Hext; reflexivity].
  destruct (nav inp) eqn:Enav; try (apply Hext; discriminate).
  change (page_settings inp w = (r, w')) in H.
  destruct (reset_leaves_demo_rows_block inp w Ep) as (w2 & H1 & H2).
  rewrite H1 in H. inversion H; subst. rewrite H2. discriminate.
Qed.

Lemma page_eqb_eq a b : page_eqb a b = true <-> a = b.
Proof. destruct a, b; cbn; split; intros H; try discriminate; reflexivity. Qed.

(** [login] always returns; it changes the session state only on a
    click on "Sign in" with credentials that match a user row. *)
Lemma login_run inp w :
  exists w',
    login inp w = (inl tt, w')
    /\ store w' = store w
    /\ session_state w'
       = (if pressed inp Sign_in
          then match matching_user (store w) inp with
               | Some u => Some (session_of u)
               | None => session_state w
               end
          else session_state w).
Proof.
  unfold login, matching_user, session_of.
  cbv [bind st when query]. cbn [store session_state screen].
  destruct (pressed inp Sign_in).
  - destruct (first _) as [u |]; eexists; split; try reflexivity; auto.
  - eexists. split; [reflexivity |]. auto.
Qed.

Lemma sidebar_run inp w :
  exists w',
    sidebar inp w = (inl tt, w')
    /\ store w' = store w
    /\ session_state w' = after_sidebar inp (session_state w).
Proof.
  unfold sidebar, after_sidebar.
  cbv [bind st when get_session]. cbn [store session_state screen].
  destruct (session_state w) as [u |].
  - cbn. destruct (pressed inp Log_out); eexists; split; try reflexivity; auto.
  - eexists. split; [reflexivity |]. auto.
Qed.

(** Without a user the gate lets only the diagnostics page through:
    every other page ends in [st.stop()], signed in or not in this very
    run. *)
Lemma gate_run inp w :
  exists w',
    store w' = store w
    /\ match session_state w with
       | Some u => gate inp w = (inl tt, w') /\ session_state w' = Some u
       | None =>
           if page_eqb (nav inp) Diagnostics
           then gate inp w = (inl tt, w') /\ session_state w' = None
           else gate inp w = (inr Stop, w')
       end.
Proof.
  unfold gate, require_auth.
  cbv [bind get_session]. cbn [store session_state screen].
  destruct (session_state w) as [u |] eqn:Es.
  - exists w. cbn. auto.
  - destruct (page_eqb (nav inp) Diagnostics).
    + exists w. cbn. auto.
    + rewrite Es. cbv [st]. cbn [store session_state screen].
      destruct (login_run inp (mkWorld (store w) (session_state w)
                                       (screen w ++ [warning "Please log in to continue."])))
        as (w1 & Hl & Hs & _).
      rewrite Hl. cbv [st_stop]. exists w1. split; [exact Hs | reflexivity].
Qed.

(** The part of a run before the page. *)
Lemma prologue_run inp w :
  seedable (store w) ->
  exists w1,
    users (store w1) <> []
    /\ extends (store w) (store w1)
    /\ match after_sidebar inp (session_state w) with
       | Some u => prologue inp w = (inl tt, w1) /\ session_state w1 = Some u
       | None =>
           if page_eqb (nav inp) Diagnostics
           then prologue inp w = (inl tt, w1) /\ session_state w1 = None
           else prologue inp w = (inr Stop, w1)
       end.
Proof.
  intros Hseed. unfold prologue.
  destruct (init_demo_data_on_seedable (clock_start inp) w Hseed)
    as (w0 & Hinit & Hu0 & Hs0 & _).
  pose proof (init_demo_data_extends (clock_start inp) w _ _ Hinit) as Hext.
  destruct (sidebar_run inp w0) as (w1 & Hside & Hst1 & Hs1).
  destruct (gate_run inp w1) as (w2 & Hst2 & Hgate).
  exists w2. rewrite Hst2, Hst1. split; [exact Hu0 |]. split; [exact Hext |].
  rewrite (bind_run _ _ _ _ _ Hinit), (bind_run _ _ _ _ _ Hside).
  rewrite <- Hs0, <- Hs1. exact Hgate.
Qed.

Lemma app_keeps_seedable isoformat inp w :
  seedable (store w) -> users (store (snd (app isoformat inp w))) <> [].
Proof.
  intros Hseed. destruct (prologue_run inp w Hseed) as (w1 & Hu & _ & Hp).
  unfold app.
  destruct (after_sidebar inp (session_state w)) as [u |].
  - destruct Hp as [Hp _]. rewrite (bind_run _ _ _ _ _ Hp).
    eapply render_keeps_users; [exact Hu | apply surjective_pairing].
  - destruct (page_eqb (nav inp) Diagnostics).
    + destruct Hp as [Hp _]. rewrite (bind_run _ _ _ _ _ Hp).
      eapply render_keeps_users; [exact Hu | apply surjective_pairing].
    + rewrite (bind_halt _ _ _ _ _ Hp). exact Hu.
Qed.

Lemma reachable_seedable isoformat w : reachable isoformat w -> seedable (store w).
Proof.
  induction 1 as [| w inp _ IH | w _ IH].
  - left. reflexivity.
  - right. unfold rerun. apply app_keeps_seedable. exact IH.
  - exact IH.
Qed.

Lemma page_diagnostics_run w :
  page_diagnostics w
  = (inl tt, mkWorld (store w) (session_state w)
                     ((screen w ++ [title "🧪 Diagnostics & Tests"])
                        ++ [success "Tonnage formula: OK (sets×reps×kg)"])).
Proof. reflexivity. Qed.

(** C8.  In every world the browser can reach: a run with "Diagnostics"
    selected renders that page, whoever is or is not signed in; a run
    with another page selected gets past the gate only with a user in
    the session state, and with none at its start it ends in
    [st.stop()] before any page. *)
Theorem diagnostics_open_other_pages_gated :
  forall isoformat w inp,
    reachable isoformat w ->
    (nav inp = Diagnostics ->
     exists w1 w',
       prologue inp w = (inl tt, w1)
       /\ app isoformat inp w = (inl tt, w')
       /\ In (title "🧪 Diagnostics & Tests") (screen w'))
    /\ (nav inp <> Diagnostics ->
        (forall w1, prologue inp w = (inl tt, w1) ->
                    exists user, session_state w1 = Some user)
        /\ (session_state w = None ->
            exists w', app isoformat inp w = (inr Stop, w'))).
Proof.
  intros isoformat w inp Hreach.
  pose proof (reachable_seedable _ _ Hreach) as Hseed.
  destruct (prologue_run inp w Hseed) as (w1 & _ & _ & Hp).
  split.
  - intros Hnav.
    assert (Hrun : prologue inp w = (inl tt, w1)).
    { destruct (after_sidebar inp (session_state w)); [apply Hp |].
      rewrite Hnav in Hp. apply Hp. }
    exists w1. eexists. split; [exact Hrun |].
    unfold app. rewrite (bind_run _ _ _ _ _ Hrun), Hnav. cbn [render].
    rewrite page_diagnostics_run. split; [reflexivity |].
    cbn [screen]. apply in_or_app. left. apply in_or_app. right. left. reflexivity.
  - intros Hnav.
    assert (Hne : page_eqb (nav inp) Diagnostics = false).
    { destruct (page_eqb (nav inp) Diagnostics) eqn:E; [| reflexivity].
      apply page_eqb_eq in E. contradiction. }
    rewrite Hne in Hp. split.
    + intros w2 Hrun. destruct (after_sidebar inp (session_state w)) as [u |].
      * destruct Hp as [Hp Hs]. rewrite Hp in Hrun. inversion Hrun; subst.
        exists u. exact Hs.
      * rewrite Hp in Hrun. discriminate Hrun.
    + intros Hnone. rewrite Hnone in Hp. cbn in Hp.
      exists w1. unfold app. apply bind_halt. exact Hp.
Qed.

Lemma diagnostics_open_other_pages_gated_witness :
  (exists w', app sample_isoformat (sample_inputs None Diagnostics) fresh = (inl tt, w')
              /\ In (title "🧪 Diagnostics & Tests") (screen w'))
  /\ exists w', app sample_isoformat (sample_inputs (Some Sign_in) Sessions) fresh
                = (inr Stop, w').
Proof.
  split.
  - destruct (proj1 (diagnostics_open_other_pages_gated
                       sample_isoformat fresh (sample_inputs None Diagnostics)
                       (reach_fresh sample_isoformat)) eq_refl)
      as (w1 & w' & _ & H & Hin).
    exists w'. auto.
  - apply (proj2 (diagnostics_open_other_pages_gated
                    sample_isoformat fresh (sample_inputs (Some Sign_in) Sessions)
                    (reach_fresh sample_isoformat))).
    + discriminate.
    + reflexivity.
Defined.

(** ** Further properties of the script *)

(** *** What the pages leave alone *)

Lemma effect_st_any (R : world -> world -> Prop) e :
  (forall w, R w (mkWorld (store w) (session_state w) (screen w ++ [e]))) ->
  effect R (st e).
Proof. intros HR w r w' H. inversion H; subst. apply HR. Qed.

Lemma effect_commit_any {A} (R : world -> world -> Prop) (ins : DB -> DB * A) :
  (forall w, R w (mkWorld (fst (ins (store w))) (session_state w) (screen w))) ->
  effect R (commit ins).
Proof. intros HR w r w' H. inversion H; subst. apply HR. Qed.

Lemma effect_put_store_any (R : world -> world -> Prop) db :
  (forall w, R w (mkWorld db (session_state w) (screen w))) ->
  effect R (put_store db).
Proof. intros HR w r w' H. inversion H; subst. apply HR. Qed.

Lemma effect_put_session_any (R : world -> world -> Prop) u :
  (forall w, R w (mkWorld (store w) u (screen w))) ->
  effect R (put_session u).
Proof. intros HR w r w' H. inversion H; subst. apply HR. Qed.

Lemma keeps_catalog_refl w : keeps_catalog w w.
Proof. repeat split; reflexivity. Qed.

Lemma keeps_catalog_trans w1 w2 w3 :
  keeps_catalog w1 w2 -> keeps_catalog w2 w3 -> keeps_catalog w1 w3.
Proof.
  unfold keeps_catalog. intros (a1 & a2 & a3 & a4 & a5) (b1 & b2 & b3 & b4 & b5).
  repeat split; congruence.
Qed.

#[local] Hint Resolve keeps_catalog_refl keeps_catalog_trans : rel.

Lemma render_keeps_catalog isoformat p inp :
  (p = Settings -> pressed inp Reset_database = false) ->
  effect keeps_catalog (render isoformat p inp).
Proof.
  intros Hreset. destruct p; cbn [render].
  - unfold page_strength_tests, write_test. effects;
      first [ apply effect_st_any | apply effect_commit_any ];
      intros w0; repeat split; reflexivity.
  - unfold page_sessions, show_session, write_set. effects;
      first [ apply effect_st_any | apply effect_commit_any ];
      intros w0; repeat split; reflexivity.
  - unfold page_diagnostics. effects;
      apply effect_st_any; intros w0; repeat split; reflexivity.
  - unfold page_settings. rewrite (Hreset eq_refl). effects;
      apply effect_st_any; intros w0; repeat split; reflexivity.
Qed.

(** The three pages that are not "Settings" never touch the session
    state, the users, the clients, the exercises or the plans, however
    the run ends. *)
Theorem pages_keep_catalog_and_session :
  forall isoformat p inp w r w',
    p <> Settings ->
    render isoformat p inp w = (r, w') ->
    session_state w' = session_state w
    /\ users (store w') = users (store w)
    /\ clients (store w') = clients (store w)
    /\ exercises (store w') = exercises (store w)
    /\ training_plans (store w') = training_plans (store w).
Proof.
  intros isoformat p inp w r w' Hp H.
  apply (render_keeps_catalog isoformat p inp (fun E => False_ind _ (Hp E)) w r w' H).
Qed.

Lemma pages_keep_catalog_and_session_witness :
  users (store (snd (page_strength_tests
                       (sample_inputs (Some Guardar_test) Strength_Tests)
                       sample_world)))
  = users sample_store.
Proof.
  apply (pages_keep_catalog_and_session
           sample_isoformat Strength_Tests
           (sample_inputs (Some Guardar_test) Strength_Tests) sample_world
           (fst (page_strength_tests
                   (sample_inputs (Some Guardar_test) Strength_Tests) sample_world))).
  - discriminate.
  - apply surjective_pairing.
Defined.

(** *** Primary keys *)

Lemma NoDup_next_id ids : NoDup ids -> NoDup (ids ++ [next_id ids]).
Proof.
  intros H. apply NoDup_app; [exact H | constructor; [tauto | constructor] |].
  intros i Hi [<- | []]. exact (next_id_fresh _ Hi).
Qed.

Lemma keeps_keys_refl w : keeps_keys w w.
Proof. intros H. exact H. Qed.

Lemma keeps_keys_trans w1 w2 w3 :
  keeps_keys w1 w2 -> keeps_keys w2 w3 -> keeps_keys w1 w3.
Proof. unfold keeps_keys. auto. Qed.

#[local] Hint Resolve keeps_keys_refl keeps_keys_trans : rel.

Ltac keys_after_insert Hid :=
  unfold keys_unique; cbn; rewrite map_app; cbn; rewrite Hid;
  intros (k1 & k2 & k3 & k4 & k5 & k6 & k7);
  repeat split; try assumption; apply NoDup_next_id; assumption.

Lemma keys_insert_user db row db' u :
  (forall i, User.id (row i) = i) ->
  insert_user db row = Some (db', u) -> keys_unique db -> keys_unique db'.
Proof.
  intros Hid. unfold insert_user. destruct (existsb _ _); intros H; inversion H; subst.
  keys_after_insert Hid.
Qed.

Lemma keys_insert_exercise db row db' e :
  (forall i, Exercise.id (row i) = i) ->
  insert_exercise db row = Some (db', e) -> keys_unique db -> keys_unique db'.
Proof.
  intros Hid. unfold insert_exercise. destruct (existsb _ _); intros H; inversion H; subst.
  keys_after_insert Hid.
Qed.

Lemma keys_insert_exercises rows : forall db db',
  Forall (fun row => forall i, Exercise.id (row i) = i) rows ->
  insert_exercises db rows = Some db' -> keys_unique db -> keys_unique db'.
Proof.
  induction rows as [| row rows IH]; cbn; intros db db' Hrows H Hk.
  - inversion H; subst. exact Hk.
  - inversion Hrows as [| ? ? Hrow Hrest]; subst.
    destruct (insert_exercise db row) as [[db1 e] |] eqn:E; [| discriminate H].
    eapply IH; [exact Hrest | exact H |].
    eapply keys_insert_exercise; eassumption.
Qed.

Lemma keys_insert_client db row :
  (forall i, Client.id (row i) = i) ->
  keys_unique db -> keys_unique (fst (insert_client db row)).
Proof. intros Hid. keys_after_insert Hid. Qed.

Lemma keys_insert_training_plan db row :
  (forall i, TrainingPlan.id (row i) = i) ->
  keys_unique db -> keys_unique (fst (insert_training_plan db row)).
Proof. intros Hid. keys_after_insert Hid. Qed.

Lemma keys_insert_training_session db row :
  (forall i, TrainingSession.id (row i) = i) ->
  keys_unique db -> keys_unique (fst (insert_training_session db row)).
Proof. intros Hid. keys_after_insert Hid. Qed.

Lemma keys_insert_set_prescription db row :
  (forall i, SetPrescription.id (row i) = i) ->
  keys_unique db -> keys_unique (fst (insert_set_prescription db row)).
Proof. intros Hid. keys_after_insert Hid. Qed.

Lemma keys_insert_strength_test db row :
  (forall i, StrengthTest.id (row i) = i) ->
  keys_unique db -> keys_unique (fst (insert_strength_test db row)).
Proof. intros Hid. keys_after_insert Hid. Qed.

Lemma keys_seed_users clk db db' us :
  seed_users clk db = Some (db', us) -> keys_unique db -> keys_unique db'.
Proof.
  unfold seed_users.
  destruct (insert_user db _) as [[db1 coach] |] eqn:E1; [| discriminate].
  destruct (insert_user db1 _) as [[db2 cu] |] eqn:E2; [| discriminate].
  intros H Hk. inversion H; subst.
  eapply keys_insert_user; [| exact E2 |]; [reflexivity |].
  eapply keys_insert_user; [| exact E1 | exact Hk]. reflexivity.
Qed.

Lemma keys_seed_catalog coach cu db db' c :
  seed_catalog coach cu db = Some (db', c) -> keys_unique db -> keys_unique db'.
Proof.
  unfold seed_catalog. cbn [insert_client].
  destruct (insert_exercises _ _) as [db2 |] eqn:E; [| discriminate].
  intros H Hk. inversion H; subst.
  eapply keys_insert_exercises; [| exact E |].
  - repeat constructor.
  - apply (keys_insert_client db (demo_client cu coach)); [reflexivity | exact Hk].
Qed.

Lemma effect_commit_or_fail_any {A} (R : world -> world -> Prop)
      (tx : DB -> option (DB * A)) :
  (forall w, R w w) ->
  (forall w db' a, tx (store w) = Some (db', a) ->
                   R w (mkWorld db' (session_state w) (screen w))) ->
  effect R (commit_or_fail tx).
Proof.
  intros Hrefl Htx w r w'. unfold commit_or_fail, bind, query, expect.
  destruct (tx (store w)) as [[db' a] |] eqn:E; cbn; intros H; inversion H; subst.
  - eapply Htx. exact E.
  - apply Hrefl.
Qed.

Lemma init_demo_data_keeps_keys clk : effect keeps_keys (init_demo_data clk).
Proof.
  unfold init_demo_data. effects.
  - apply effect_commit_or_fail_any; [auto with rel |].
    intros w db' us E. exact (keys_seed_users _ _ _ _ E).
  - apply effect_commit_or_fail_any; [auto with rel |].
    intros w db' c E. exact (keys_seed_catalog _ _ _ _ _ E).
  - apply effect_commit_any. intros w Hk.
    apply (keys_insert_training_plan (store w)); [reflexivity | exact Hk].
Qed.

Ltac keys_leaf :=
  let Hkeys := fresh "Hkeys" in
  first
    [ apply effect_st_any; intros ? Hkeys; exact Hkeys
    | apply effect_put_session_any; intros ? Hkeys; exact Hkeys
    | apply effect_put_store_any; intros ? _; repeat split; constructor ].

(** Every run of the script keeps the primary keys: from a store in
    which no table has an id twice it leaves such a store, however it
    ends (seeding, the three forms and the reset included). *)
Theorem app_keeps_keys_unique :
  forall isoformat inp w r w',
    keys_unique (store w) ->
    app isoformat inp w = (r, w') ->
    keys_unique (store w').
Proof.
  intros isoformat inp w r w' Hk H.
  assert (He : effect keeps_keys (app isoformat inp)).
  { unfold app, prologue.
    apply effect_bind; [eauto with rel | | intros _].
    - apply effect_bind; [eauto with rel | apply init_demo_data_keeps_keys | intros _].
      unfold sidebar, gate, require_auth, login. effects; keys_leaf.
    - destruct (nav inp); cbn [render].
      + unfold page_strength_tests, write_test. effects; try keys_leaf.
        apply effect_commit_any. intros w0 Hk0.
        apply (keys_insert_strength_test (store w0)); [reflexivity | exact Hk0].
      + unfold page_sessions, show_session, write_set. effects; try keys_leaf.
        * apply effect_commit_any. intros w0 Hk0.
          apply (keys_insert_training_session (store w0)); [reflexivity | exact Hk0].
        * apply effect_commit_any. intros w0 Hk0.
          apply (keys_insert_set_prescription (store w0)); [reflexivity | exact Hk0].
      + unfold page_diagnostics. effects; keys_leaf.
      + unfold page_settings. effects; try keys_leaf.
        apply init_demo_data_keeps_keys. }
  exact (He w r w' H Hk).
Qed.

Lemma app_keeps_keys_unique_witness :
  keys_unique sample_store
  /\ keys_unique (store (snd (app sample_isoformat
                                  (sample_inputs (Some (Anadir_serie 1)) Sessions)
                                  sample_world))).
Proof.
  assert (Hk : keys_unique sample_store).
  { unfold keys_unique. cbn. repeat split; repeat constructor; cbn; intuition discriminate. }
  split; [exact Hk |].
  apply (app_keeps_keys_unique sample_isoformat
           (sample_inputs (Some (Anadir_serie 1)) Sessions) sample_world
           (fst (app sample_isoformat
                     (sample_inputs (Some (Anadir_serie 1)) Sessions) sample_world))).
  - exact Hk.
  - apply surjective_pairing.
Defined.

(** *** Signing in and out *)

Lemma first_filter_some {A} (p : A -> bool) l x :
  first (filter p l) = Some x -> In x l /\ p x = true.
Proof.
  unfold first. destruct (filter p l) as [| y l'] eqn:E; cbn; intros H; [discriminate |].
  inversion H; subst. apply filter_In. rewrite E. left. reflexivity.
Qed.

Lemma first_filter_none {A} (p : A -> bool) l :
  first (filter p l) = None -> forall x, In x l -> p x = false.
Proof.
  unfold first. destruct (filter p l) as [| y l'] eqn:E; cbn; intros H; [| discriminate].
  intros x Hx. destruct (p x) eqn:Ep; [| reflexivity].
  assert (Hin : In x (filter p l)) by (apply filter_In; auto).
  rewrite E in Hin. contradiction.
Qed.

(** [login] always returns and never touches the store.  Without a
    click on "Sign in" the session state stays; with one, either some
    user row has the typed email and password, and the session state
    becomes that row's id, name, role and email with a welcome shown, or
    no row has them, and the session state stays with the error
    shown. *)
Theorem login_checks_credentials :
  forall inp w,
    exists w',
      login inp w = (inl tt, w')
      /\ store w' = store w
      /\ (pressed inp Sign_in = false -> session_state w' = session_state w)
      /\ (pressed inp Sign_in = true ->
          (exists u,
              In u (users (store w))
              /\ User.email u = in_email inp /\ User.hash u = in_pwd inp
              /\ session_state w' = Some (mkSessionUser (User.id u) (User.name u)
                                                        (User.role u) (User.email u))
              /\ In (welcome (User.name u)) (screen w'))
          \/ ((forall u, In u (users (store w)) ->
                         ~ (User.email u = in_email inp /\ User.hash u = in_pwd inp))
              /\ session_state w' = session_state w
              /\ In (error "Invalid credentials (demo user: coach@example.com / demo)")
                    (screen w'))).
Proof.
  intros inp w. unfold login.
  cbv [bind st when query]. cbn [store session_state screen].
  destruct (pressed inp Sign_in).
  - match goal with
    | |- context [first ?l] => destruct (first l) as [u |] eqn:E
    end.
    + eexists. split; [reflexivity |]. cbn [store session_state screen].
      split; [reflexivity |]. split; [discriminate |]. intros _. left.
      apply first_filter_some in E. destruct E as [Hin Hm].
      apply andb_true_iff in Hm. destruct Hm as [He Hh].
      apply String.eqb_eq in He, Hh.
      exists u. repeat split; try assumption.
      apply in_or_app. right. left. reflexivity.
    + eexists. split; [reflexivity |]. cbn [store session_state screen].
      split; [reflexivity |]. split; [discriminate |]. intros _. right.
      split; [| split; [reflexivity | apply in_or_app; right; left; reflexivity]].
      intros u Hin [He Hh].
      pose proof (first_filter_none _ _ E u Hin) as Hf. cbn in Hf.
      rewrite He, Hh, !String.eqb_refl in Hf. discriminate Hf.
  - eexists. split; [reflexivity |]. cbn [store session_state screen].
    split; [reflexivity |]. split; [reflexivity | discriminate].
Qed.

Lemma login_checks_credentials_witness :
  session_state (snd (login (sample_inputs (Some Sign_in) Sessions)
                            (mkWorld (seeded sample_clock) None [])))
  = Some sample_coach.
Proof.
  destruct (login_checks_credentials (sample_inputs (Some Sign_in) Sessions)
                                     (mkWorld (seeded sample_clock) None []))
    as (w' & Hrun & _ & _ & Hin).
  rewrite Hrun. cbn [snd].
  destruct (Hin eq_refl) as [(u & Hu & He & Hh & Hs & _) | (Hno & _)].
  - rewrite Hs. destruct Hu as [<- | [<- | []]]; [reflexivity | discriminate He].
  - exfalso. apply (Hno (User.mk 1 "coach@example.com" "Coach Demo" (Some "coach")
                                 "demo" (Some (utcnow_coach sample_clock)))).
    + left. reflexivity.
    + split; reflexivity.
Defined.

Lemma gate_stop_run inp w :
  session_state w = None ->
  nav inp <> Diagnostics ->
  exists w',
    gate inp w = (inr Stop, w')
    /\ store w' = store w
    /\ session_state w'
       = (if pressed inp Sign_in
          then match matching_user (store w) inp with
               | Some u => Some (session_of u)
               | None => None
               end
          else None).
Proof.
  intros Hs Hnav. unfold gate, require_auth.
  cbv [bind get_session]. cbn [store session_state screen]. rewrite Hs.
  destruct (page_eqb (nav inp) Diagnostics) eqn:E;
    [apply page_eqb_eq in E; contradiction |].
  rewrite Hs. cbv beta iota. cbv [st]. cbn [store session_state screen].
  destruct (login_run inp (mkWorld (store w) (session_state w)
                                   (screen w ++ [warning "Please log in to continue."])))
    as (w1 & Hl & Hst & Hss).
  rewrite Hl. cbv [st_stop]. exists w1. split; [reflexivity |].
  split; [exact Hst |]. rewrite Hss. cbn [store session_state]. rewrite Hs.
  destruct (pressed inp Sign_in); [| reflexivity].
  destruct (matching_user (store w) inp); reflexivity.
Qed.

(** A click on "Log out" drops the user for good: the run leaves no
    user in the session state and the store as it was, and it renders
    the diagnostics page or, for any other page, stops at the gate. *)
Theorem log_out_ends_session :
  forall isoformat inp w u,
    users (store w) <> [] ->
    session_state w = Some u ->
    pressed inp Log_out = true ->
    exists w',
      store w' = store w
      /\ session_state w' = None
      /\ (if page_eqb (nav inp) Diagnostics
          then app isoformat inp w = (inl tt, w')
          else app isoformat inp w = (inr Stop, w')).
Proof.
  intros isoformat inp w u Hu Hs Hout.
  destruct (sidebar_run inp w) as (w1 & Hside & Hst1 & Hs1).
  rewrite Hs in Hs1. cbn in Hs1. rewrite Hout in Hs1.
  destruct (page_eqb (nav inp) Diagnostics) eqn:E.
  - apply page_eqb_eq in E.
    destruct (gate_run inp w1) as (w2 & Hst2 & Hg).
    rewrite Hs1, E in Hg. cbn in Hg. destruct Hg as [Hg Hs2].
    assert (Hpro : prologue inp w = (inl tt, w2)).
    { unfold prologue.
      rewrite (bind_run _ _ _ _ _ (init_demo_data_skips (clock_start inp) w Hu)).
      rewrite (bind_run _ _ _ _ _ Hside). exact Hg. }
    eexists. split; [| split].
    3: { unfold app. rewrite (bind_run _ _ _ _ _ Hpro), E. cbn [render].
         apply page_diagnostics_run. }
    + cbn. congruence.
    + cbn. exact Hs2.
  - assert (Hnav : nav inp <> Diagnostics).
    { intros Heq. rewrite Heq in E. discriminate E. }
    destruct (gate_stop_run inp w1 Hs1 Hnav) as (w2 & Hg & Hst2 & Hs2).
    assert (Hpro : prologue inp w = (inr Stop, w2)).
    { unfold prologue.
      rewrite (bind_run _ _ _ _ _ (init_demo_data_skips (clock_start inp) w Hu)).
      rewrite (bind_run _ _ _ _ _ Hside). exact Hg. }
    exists w2. split; [congruence |]. split.
    + rewrite Hs2. rewrite (pressed_other inp Log_out Sign_in Hout); [reflexivity |].
      discriminate.
    + unfold app. apply bind_halt. exact Hpro.
Qed.

Lemma log_out_ends_session_witness :
  exists w',
    app sample_isoformat (sample_inputs (Some Log_out) Sessions) sample_world
    = (inr Stop, w')
    /\ session_state w' = None /\ store w' = sample_store.
Proof.
  destruct (log_out_ends_session sample_isoformat
              (sample_inputs (Some Log_out) Sessions) sample_world sample_coach)
    as (w' & Hst & Hs & Hrun).
  - discriminate.
  - reflexivity.
  - reflexivity.
  - exists w'. cbn in Hrun. auto.
Defined.

(** Signing in opens the pages from the next run on: a run that starts
    without a user, on a page behind the gate, with a click on "Sign in"
    and credentials of a user row, stops, leaves the store as it was and
    that user in the session state; the next run, "Log out" not clicked,
    passes the gate with the same user. *)
Theorem sign_in_opens_next_run :
  forall isoformat w inp1 inp2 u,
    users (store w) <> [] ->
    session_state w = None ->
    nav inp1 <> Diagnostics ->
    pressed inp1 Sign_in = true ->
    matching_user (store w) inp1 = Some u ->
    pressed inp2 Log_out = false ->
    exists w1,
      app isoformat inp1 w = (inr Stop, w1)
      /\ store (rerun isoformat w inp1) = store w
      /\ session_state (rerun isoformat w inp1) = Some (session_of u)
      /\ exists w2,
           prologue inp2 (rerun isoformat w inp1) = (inl tt, w2)
           /\ session_state w2 = Some (session_of u).
Proof.
  intros isoformat w inp1 inp2 u Hu Hs Hnav Hin Hm Hout.
  assert (Hrun : forall scr,
             exists w1, app isoformat inp1 (mkWorld (store w) (session_state w) scr)
                        = (inr Stop, w1)
                        /\ store w1 = store w
                        /\ session_state w1 = Some (session_of u)).
  { intros scr.
    set (w0 := mkWorld (store w) (session_state w) scr).
    destruct (sidebar_run inp1 w0) as (wa & Hside & Hsta & Hsa).
    cbn [w0 store session_state] in Hsta, Hsa. rewrite Hs in Hsa. cbn in Hsa.
    destruct (gate_stop_run inp1 wa Hsa Hnav) as (wb & Hg & Hstb & Hsb).
    assert (Hpro : prologue inp1 w0 = (inr Stop, wb)).
    { unfold prologue.
      rewrite (bind_run _ _ _ _ _ (init_demo_data_skips (clock_start inp1) w0 Hu)).
      rewrite (bind_run _ _ _ _ _ Hside). exact Hg. }
    exists wb. split; [unfold app; apply bind_halt; exact Hpro |].
    split; [congruence |].
    rewrite Hsb, Hin, Hsta, Hm. reflexivity. }
  destruct (Hrun (screen w)) as (w1 & Hr1 & _ & _).
  destruct (Hrun []) as (w1' & Hr2 & Hst & Hss).
  exists w1. split; [destruct w; exact Hr1 |].
  unfold rerun. rewrite Hr2. cbn [snd].
  split; [exact Hst |]. split; [exact Hss |].
  assert (Hseed : seedable (store w1')) by (right; rewrite Hst; exact Hu).
  destruct (prologue_run inp2 w1' Hseed) as (w2 & _ & _ & Hp).
  rewrite Hss in Hp. cbn in Hp. rewrite Hout in Hp.
  exists w2. exact Hp.
Qed.

Lemma sign_in_opens_next_run_witness :
  session_state (rerun sample_isoformat (mkWorld sample_store None [])
                       (sample_inputs (Some Sign_in) Sessions))
  = Some sample_coach.
Proof.
  destruct (sign_in_opens_next_run sample_isoformat (mkWorld sample_store None [])
              (sample_inputs (Some Sign_in) Sessions) (sample_inputs None Sessions)
              (User.mk 1 "coach@example.com" "Coach Demo" (Some "coach") "demo"
                       (Some (utcnow_coach sample_clock))))
    as (w1 & _ & _ & Hs & _).
  - discriminate.
  - reflexivity.
  - discriminate.
  - reflexivity.
  - reflexivity.
  - reflexivity.
  - exact Hs.
Defined.

(** *** Seeding next to rows that are already there *)

Lemma seed_users_on_empty clk db :
  users db = [] ->
  seed_users clk db
  = Some (with_users db [demo_coach clk 1; demo_client_user clk 2],
          (demo_coach clk 1, demo_client_user clk 2)).
Proof.
  intros H. unfold seed_users, insert_user. rewrite H.
  cbn [map next_id existsb app]. cbn [with_users users]. 
  cbn [existsb map app next_id fold_left]. destruct db; cbn in *. subst.
  reflexivity.
Qed.

Lemma insert_exercise_taken db row name e :
  (forall i, Exercise.name (row i) = Some name) ->
  In e (exercises db) -> Exercise.name e = Some name ->
  insert_exercise db row = None.
Proof.
  intros Hrow Hin He. unfold insert_exercise.
  replace (existsb _ (exercises db)) with true; [reflexivity |].
  symmetry. apply existsb_exists. exists e. split; [exact Hin |].
  rewrite He, Hrow. apply String.eqb_refl.
Qed.

Lemma insert_exercises_taken rows : forall db row name e,
  In row rows ->
  (forall i, Exercise.name (row i) = Some name) ->
  In e (exercises db) -> Exercise.name e = Some name ->
  insert_exercises db rows = None.
Proof.
  induction rows as [| r rows IH]; cbn; intros db row name e Hin Hrow He Hn;
    [contradiction |].
  destruct (insert_exercise db r) as [[db1 e1] |] eqn:E; [| reflexivity].
  destruct Hin as [-> | Hin].
  - rewrite (insert_exercise_taken db row name e Hrow He Hn) in E. discriminate E.
  - apply (IH db1 row name e Hin Hrow); [| exact Hn].
    destruct (extends_insert_exercise _ _ _ _ E) as (_ & _ & (more & ->) & _).
    apply in_or_app. left. exact He.
Qed.

(** Seeding a store that has no user but already has an exercise under
    one of the four demo names: the two users are committed, the second
    commit is refused as a whole ([IntegrityError]), so no client, no
    exercise and no plan is added; and since a user now exists, no later
    seeding adds them either. *)
Theorem seeding_stops_at_taken_exercise_name :
  forall clk w name,
    users (store w) = [] ->
    In name ["Back Squat"; "Bench Press"; "Deadlift"; "Lat Pulldown"] ->
    (exists e, In e (exercises (store w)) /\ Exercise.name e = Some name) ->
    exists w',
      init_demo_data clk w = (inr (Raise IntegrityError), w')
      /\ store w' = with_users (store w) [demo_coach clk 1; demo_client_user clk 2]
      /\ session_state w' = session_state w
      /\ forall clk', init_demo_data clk' w' = (inl tt, w').
Proof.
  intros clk w name Hu Hname (e & He & Hn).
  assert (Hcat : seed_catalog (demo_coach clk 1) (demo_client_user clk 2)
                   (with_users (store w) [demo_coach clk 1; demo_client_user clk 2])
                 = None).
  { unfold seed_catalog. cbn [insert_client].
    assert (Hrow : exists row,
               In row [ demo_exercise "Back Squat" "squat" "barbell";
                        demo_exercise "Bench Press" "push" "barbell";
                        demo_exercise "Deadlift" "hinge" "barbell";
                        demo_exercise "Lat Pulldown" "pull" "machine" ]
               /\ forall i, Exercise.name (row i) = Some name).
    { destruct Hname as [<- | [<- | [<- | [<- | []]]]]; eexists; split;
        [ left; reflexivity | reflexivity
        | right; left; reflexivity | reflexivity
        | right; right; left; reflexivity | reflexivity
        | right; right; right; left; reflexivity | reflexivity ]. }
    destruct Hrow as (row & Hin & Hrow).
    rewrite (insert_exercises_taken _ _ row name e Hin Hrow); [reflexivity | | exact Hn].
    cbn. exact He. }
  exists (mkWorld (with_users (store w) [demo_coach clk 1; demo_client_user clk 2])
                  (session_state w) (screen w)).
  split; [| split; [reflexivity | split; [reflexivity |]]].
  - unfold init_demo_data.
    cbv [bind query first commit_or_fail expect raise ret put_store].
    rewrite Hu. cbn [hd_error].
    rewrite (seed_users_on_empty clk (store w) Hu). cbn [fst snd store].
    rewrite Hcat. reflexivity.
  - intros clk'. apply init_demo_data_skips. cbn. discriminate.
Qed.

Lemma seeding_stops_at_taken_exercise_name_witness :
  exists w',
    init_demo_data sample_clock (mkWorld (with_users sample_store []) None [])
    = (inr (Raise IntegrityError), w')
    /\ clients (store w') = clients sample_store
    /\ List.length (users (store w')) = 2%nat.
Proof.
  destruct (seeding_stops_at_taken_exercise_name sample_clock
              (mkWorld (with_users sample_store []) None []) "Deadlift")
    as (w' & Hrun & Hst & _).
  - reflexivity.
  - right. right. left. reflexivity.
  - eexists. split; [right; right; left; reflexivity | reflexivity].
  - exists w'. split; [exact Hrun |]. rewrite Hst. split; reflexivity.
Defined.

(** *** Saving a test and reading the latest 1RM *)

Lemma older_not_before d k :
  date_le k (Some d) = true -> k <> Some d -> date_le (Some d) k = false.
Proof.
  destruct k as [y |]; cbn; [| reflexivity].
  intros H Hne. apply Z.leb_le in H. apply Z.leb_gt.
  assert (y <> d) by congruence. lia.
Qed.

Lemma order_by_desc_newest_last {A} (key : A -> option Z) t d m :
  key t = Some d ->
  (forall x, In x m -> date_le (key x) (Some d) = true /\ key x <> Some d) ->
  exists rest, order_by_desc key (m ++ [t]) = t :: rest.
Proof.
  intros Ht. unfold order_by_desc.
  induction m as [| x m IH]; intros Hm.
  - exists []. reflexivity.
  - destruct IH as (rest & IH); [intros y Hy; apply Hm; right; exact Hy |].
    change (order_by key (fun a b => date_le b a) ((x :: m) ++ [t]))
      with (place key (fun a b => date_le b a) x
              (order_by key (fun a b => date_le b a) (m ++ [t]))).
    rewrite IH. cbn [place]. rewrite Ht.
    destruct (Hm x (or_introl eq_refl)) as [Hle Hne].
    rewrite (older_not_before d (key x) Hle Hne). eexists. reflexivity.
Qed.

(** A test saved from the form with a date after every earlier test of
    the same client and exercise is the one [get_latest_one_rm] answers
    with from then on, and its 1RM, unless zero, is what the 1RM field
    of a set form for that client and exercise starts with. *)
Theorem saved_newest_test_is_latest :
  forall db cid eid inp,
    (forall t, In t (strength_tests db) ->
               StrengthTest.client_id t = Some cid ->
               StrengthTest.exercise_id t = Some eid ->
               date_le (StrengthTest.date t) (Some (in_test_date inp)) = true
               /\ StrengthTest.date t <> Some (in_test_date inp)) ->
    let db' := fst (insert_strength_test db (new_strength_test cid eid inp)) in
    get_latest_one_rm db' (Some cid) eid = Some (in_onerm inp)
    /\ (Py.truthy_float (in_onerm inp) = true ->
        one_rm_default (get_latest_one_rm db' (Some cid) eid) = in_onerm inp).
Proof.
  intros db cid eid inp Hold db'.
  assert (Hlatest : get_latest_one_rm db' (Some cid) eid = Some (in_onerm inp)).
  { unfold db', get_latest_one_rm, latest_test. cbn [insert_strength_test fst].
    cbn [strength_tests with_strength_tests]. rewrite filter_app.
    set (t := new_strength_test cid eid inp _).
    set (p := fun t0 => col_is (StrengthTest.client_id t0) (Some cid)
                        && col_eq (StrengthTest.exercise_id t0) eid).
    assert (Hp : p t = true).
    { unfold p, t. cbn. rewrite !Z.eqb_refl. reflexivity. }
    cbn [filter]. rewrite Hp.
    destruct (order_by_desc_newest_last StrengthTest.date t (in_test_date inp)
                (filter p (strength_tests db))) as (rest & ->).
    - reflexivity.
    - intros x Hx. apply filter_In in Hx. destruct Hx as [Hin Hpx].
      unfold p in Hpx. apply andb_true_iff in Hpx. destruct Hpx as [Hc He].
      apply col_is_true in Hc. apply col_eq_true in He. apply Hold; assumption.
    - reflexivity. }
  split; [exact Hlatest |].
  intros Htruthy. rewrite Hlatest. unfold one_rm_default. rewrite Htruthy. reflexivity.
Qed.

Lemma saved_newest_test_is_latest_witness :
  get_latest_one_rm
    (fst (insert_strength_test sample_store
            (new_strength_test 1 1
               (sample_inputs_with (Some Guardar_test) Strength_Tests 738010
                                   105%float "coach@example.com" "demo"))))
    (Some 1) 1
  = Some 105%float.
Proof.
  apply (saved_newest_test_is_latest sample_store 1 1
           (sample_inputs_with (Some Guardar_test) Strength_Tests 738010
                               105%float "coach@example.com" "demo")).
  intros t [<- | [<- | []]]; cbn; intros _ He; [| discriminate He].
  split; [reflexivity | discriminate].
Defined.

(** *** Rows written by the forms reference rows that exist *)

Lemma show_session_row inp plan exmap s w w' :
  show_session inp plan exmap s w = (inl tt, w') ->
  (pressed inp (Anadir_serie (TrainingSession.id s)) = false /\ store w' = store w)
  \/ (pressed inp (Anadir_serie (TrainingSession.id s)) = true
      /\ exists ex_id,
           Py.dict_get opt_string_eqb
                       (f_ex_name (set_forms inp (TrainingSession.id s))) exmap
           = Some ex_id
           /\ store w' = fst (insert_set_prescription (store w)
                                (new_set_prescription (TrainingSession.id s) ex_id
                                   (set_forms inp (TrainingSession.id s))))).
Proof.
  intros H. apply show_session_inl in H.
  destruct H as (ex_id & pre & post & Hex & Hs & _).
  destruct (pressed inp (Anadir_serie (TrainingSession.id s))).
  - right. split; [reflexivity |]. exists ex_id. auto.
  - left. auto.
Qed.

Lemma for_each_show_session_row inp plan exmap sessions : forall w w',
  NoDup (map TrainingSession.id sessions) ->
  for_each sessions (show_session inp plan exmap) w = (inl tt, w') ->
  store w' = store w
  \/ exists s ex_id,
       In s sessions
       /\ Py.dict_get opt_string_eqb
                      (f_ex_name (set_forms inp (TrainingSession.id s))) exmap
          = Some ex_id
       /\ store w' = fst (insert_set_prescription (store w)
                            (new_set_prescription (TrainingSession.id s) ex_id
                               (set_forms inp (TrainingSession.id s)))).
Proof.
  induction sessions as [| s l IH]; cbn [for_each map]; intros w w' Hnd H.
  - apply ret_inl in H. destruct H as [_ ->]. left. reflexivity.
  - inversion Hnd as [| ? ? Hs Hl]; subst.
    apply bind_inl in H. destruct H as ([] & w1 & H1 & H).
    pose proof (for_each_show_session_store _ _ _ _ _ _ Hl H) as Htail.
    apply show_session_row in H1. apply IH in H; [| exact Hl].
    destruct H1 as [[Hp1 Hs1] | (Hp1 & ex_id & Hex & Hs1)].
    + destruct H as [Hst | (s' & ex_id & Hin & Hex & Hst)].
      * left. congruence.
      * right. exists s', ex_id. split; [right; exact Hin |].
        split; [exact Hex |]. rewrite Hst, Hs1. reflexivity.
    + right. exists s, ex_id. split; [left; reflexivity |]. split; [exact Hex |].
      destruct Htail as [[_ Hst] | (s' & ex' & Hin & Hp & _)]; [congruence |].
      exfalso. apply Hs.
      assert (E : Anadir_serie (TrainingSession.id s) = Anadir_serie (TrainingSession.id s'))
        by (eapply pressed_one; eassumption).
      inversion E as [E']. rewrite E'. apply in_map, Hin.
Qed.

Lemma exmap_of_in name ex_id exs :
  Py.dict_get opt_string_eqb name (exmap_of exs) = Some ex_id ->
  exists e, In e exs /\ Exercise.name e = name /\ Exercise.id e = ex_id.
Proof.
  intros H. apply (dict_get_of opt_string_eqb opt_string_eqb_eq) in H.
  apply in_map_iff in H. destruct H as (e & Hpair & Hin).
  inversion Hpair. exists e. auto.
Qed.

(** Whenever a completed render has changed the store, the change is
    one row whose references exist: a test of a client of the signed-in
    coach and of the chosen exercise; a session of a plan in the store;
    or a set of a session of that plan and of the exercise chosen in
    its form. *)
Theorem saved_rows_reference_existing_rows :
  (forall inp w w',
      page_strength_tests inp w = (inl tt, w') ->
      store w' <> store w ->
      exists user c e,
        session_state w = Some user
        /\ In c (clients (store w))
        /\ Client.owner_id c = Some (su_id user)
        /\ In e (exercises (store w))
        /\ Exercise.name e = in_ex_name inp
        /\ store w'
           = with_strength_tests (store w)
               (strength_tests (store w)
                  ++ [new_strength_test (Client.id c) (Exercise.id e) inp
                        (next_id (map StrengthTest.id (strength_tests (store w))))]))
  /\ (forall isoformat inp w w',
        session_ids_unique (store w) ->
        page_sessions isoformat inp w = (inl tt, w') ->
        store w' <> store w ->
        exists plan,
          In plan (training_plans (store w))
          /\ (store w'
              = with_training_sessions (store w)
                  (training_sessions (store w)
                     ++ [new_training_session plan inp
                           (next_id (map TrainingSession.id
                                         (training_sessions (store w))))])
              \/ exists s e,
                   In s (training_sessions (store w))
                   /\ TrainingSession.plan_id s = Some (TrainingPlan.id plan)
                   /\ In e (exercises (store w))
                   /\ Exercise.name e
                      = f_ex_name (set_forms inp (TrainingSession.id s))
                   /\ store w'
                      = with_set_prescriptions (store w)
                          (set_prescriptions (store w)
                             ++ [new_set_prescription (TrainingSession.id s)
                                   (Exercise.id e)
                                   (set_forms inp (TrainingSession.id s))
                                   (next_id (map SetPrescription.id
                                                 (set_prescriptions (store w))))]))).
Proof.
  split.
  - intros inp w w' H Hne. apply page_strength_tests_full in H.
    destruct H as (user & Hu & _ & [(_ & Hs & _) | (_ & _ & c & Hc & _ & Hst & _)]);
      [contradiction |].
    destruct Hst as [[_ Hs] | (_ & e & He & Hn & Hs)]; [contradiction |].
    apply filter_In in Hc. destruct Hc as [Hc Ho]. apply col_eq_true in Ho.
    exists user, c, e. repeat split; assumption.
  - intros isoformat inp w w' Huniq H Hne.
    apply page_sessions_split in H.
    destruct H as [(_ & Hs & _) | (plan & w1 & Hin & Hs1 & _ & _ & H)];
      [contradiction |].
    exists plan. split; [exact Hin |].
    assert (Hq : session_ids_unique (store w1)).
    { rewrite Hs1. destruct (pressed inp Anadir_sesion); [| exact Huniq].
      apply insert_training_session_ids_unique; [reflexivity | exact Huniq]. }
    pose proof (for_each_show_session_store _ _ _ _ _ _
                  (sessions_of_plan_ids_unique _ _ Hq) H) as Hstore.
    apply for_each_show_session_row in H;
      [| apply sessions_of_plan_ids_unique, Hq].
    destruct (pressed inp Anadir_sesion) eqn:Ep; cbv beta iota in Hs1.
    + left. destruct Hstore as [[_ Hst] | (s & ex_id & _ & Hp & _)].
      * rewrite Hst, Hs1. reflexivity.
      * pose proof (pressed_one _ _ _ Ep Hp) as E. discriminate E.
    + right. rewrite Hs1 in H.
      destruct H as [Hst | (s & ex_id & Hs & Hex & Hst)];
        [exfalso; apply Hne; exact Hst |].
      apply exmap_of_in in Hex. destruct Hex as (e & He & Hn & Hid).
      apply sessions_of_plan_in in Hs. destruct Hs as [Hs Hplan].
      exists s, e. rewrite Hst, Hid. repeat split; assumption.
Qed.

Lemma saved_rows_reference_existing_rows_witness :
  session_ids_unique sample_store
  /\ exists e,
       In e (exercises sample_store)
       /\ Exercise.name e = Some "Back Squat"
       /\ List.length (strength_tests
                         (store (snd (page_strength_tests
                                        (sample_inputs (Some Guardar_test) Strength_Tests)
                                        sample_world))))
          = 3%nat.
Proof.
  split; [repeat constructor; cbn; tauto |].
  assert (Hrun : page_strength_tests (sample_inputs (Some Guardar_test) Strength_Tests)
                                     sample_world
                 = (inl tt, snd (page_strength_tests
                                   (sample_inputs (Some Guardar_test) Strength_Tests)
                                   sample_world))).
  { vm_compute. reflexivity. }
  destruct (proj1 saved_rows_reference_existing_rows
              (sample_inputs (Some Guardar_test) Strength_Tests) sample_world _ Hrun)
    as (user & c & e & _ & _ & _ & He & Hn & Hs).
  - intros Heq. apply (f_equal (fun d => List.length (strength_tests d))) in Heq.
    vm_compute in Heq. discriminate Heq.
  - exists e. split; [exact He |]. split; [exact Hn |].
    rewrite Hs. cbn. reflexivity.
Defined.

(** *** A run that dies has written at most one row *)

Lemma effect_seq {A B} (R1 R2 R : world -> world -> Prop)
      (m : script A) (k : A -> script B) :
  effect R1 m -> (forall a, effect R2 (k a)) ->
  (forall w, R2 w w) ->
  (forall w1 w2 w3, R1 w1 w2 -> R2 w2 w3 -> R w1 w3) ->
  effect R (bind m k).
Proof.
  intros Hm Hk Hrefl Hcomp w r w'. unfold bind.
  destruct (m w) as [[a | h] w1] eqn:E; intros H.
  - eapply Hcomp; [eapply Hm; exact E | eapply Hk; exact H].
  - inversion H; subst. eapply Hcomp; [eapply Hm; exact E | apply Hrefl].
Qed.

Lemma effect_weaken {A} (R R' : world -> world -> Prop) (m : script A) :
  (forall w w', R w w' -> R' w w') -> effect R m -> effect R' m.
Proof. intros Himp Hm w r w' H. apply Himp. eapply Hm. exact H. Qed.

Section OneMore.
Variable R : world -> world -> Prop.
Hypothesis R_refl : forall w, R w w.
Hypothesis R_after : forall w1 w2 w3, same_data w1 w2 -> R w2 w3 -> R w1 w3.
Hypothesis R_before : forall w1 w2 w3, R w1 w2 -> same_data w2 w3 -> R w1 w3.

(** A step that writes nothing, then the rest. *)
Lemma quiet_then {A B} (m : script A) (k : A -> script B) :
  effect same_data m -> (forall a, effect R (k a)) -> effect R (bind m k).
Proof. intros Hm Hk. eapply effect_seq; eauto. Qed.

(** The writing step, then a rest that writes nothing. *)
Lemma then_quiet {A B} (m : script A) (k : A -> script B) :
  effect R m -> (forall a, effect same_data (k a)) -> effect R (bind m k).
Proof.
  intros Hm Hk. eapply effect_seq; eauto. apply same_data_refl.
Qed.

Lemma quiet_is_fine {A} (m : script A) : effect same_data m -> effect R m.
Proof.
  apply effect_weaken. intros w w' H.
  eapply R_after; [exact H | apply R_refl].
Qed.
End OneMore.

Lemma one_test_more_refl w : one_test_more w w.
Proof. left. reflexivity. Qed.

Lemma one_test_more_after w1 w2 w3 :
  same_data w1 w2 -> one_test_more w2 w3 -> one_test_more w1 w3.
Proof. intros [Hs _] H. unfold one_test_more in *. rewrite <- Hs. exact H. Qed.

Lemma one_test_more_before w1 w2 w3 :
  one_test_more w1 w2 -> same_data w2 w3 -> one_test_more w1 w3.
Proof. intros H [Hs _]. unfold one_test_more in *. rewrite Hs. exact H. Qed.

Lemma one_session_more_refl w : one_session_more w w.
Proof. left. reflexivity. Qed.

Lemma one_session_more_after w1 w2 w3 :
  same_data w1 w2 -> one_session_more w2 w3 -> one_session_more w1 w3.
Proof. intros [Hs _] H. unfold one_session_more in *. rewrite <- Hs. exact H. Qed.

Lemma one_session_more_before w1 w2 w3 :
  one_session_more w1 w2 -> same_data w2 w3 -> one_session_more w1 w3.
Proof. intros H [Hs _]. unfold one_session_more in *. rewrite Hs. exact H. Qed.

Lemma one_set_more_refl w : one_set_more w w.
Proof. left. reflexivity. Qed.

Lemma one_set_more_after w1 w2 w3 :
  same_data w1 w2 -> one_set_more w2 w3 -> one_set_more w1 w3.
Proof. intros [Hs _] H. unfold one_set_more in *. rewrite <- Hs. exact H. Qed.

Lemma one_set_more_before w1 w2 w3 :
  one_set_more w1 w2 -> same_data w2 w3 -> one_set_more w1 w3.
Proof. intros H [Hs _]. unfold one_set_more in *. rewrite Hs. exact H. Qed.

(** Peel the steps that write nothing off the front of a script. *)
Ltac quiet_prefix Hrefl Hafter :=
  repeat
    (lazymatch goal with
     | |- effect _ (bind (when _ _) _) => fail
     | |- effect _ (bind (commit _) _) => fail
     | |- effect _ (bind (for_each _ _) _) => fail
     | |- effect _ (bind _ _) =>
         apply (quiet_then _ Hrefl Hafter); [solve [effects] | intros]
     | |- effect _ (match ?x with _ => _ end) => destruct x
     end).

Lemma write_test_quiet t : effect same_data (write_test t).
Proof. unfold write_test. effects. Qed.

Lemma write_set_quiet acc sp : effect same_data (write_set acc sp).
Proof. unfold write_set. effects. Qed.

Lemma page_strength_tests_one_test inp :
  effect one_test_more (page_strength_tests inp).
Proof.
  unfold page_strength_tests.
  quiet_prefix one_test_more_refl one_test_more_after;
    try (apply (quiet_is_fine _ one_test_more_refl one_test_more_after); solve [effects]).
  apply (then_quiet _ one_test_more_before).
  - apply effect_when; [apply one_test_more_refl |].
    quiet_prefix one_test_more_refl one_test_more_after.
    apply (then_quiet _ one_test_more_before); [| intros; effects].
    intros w r w' H. inversion H; subst. right. eexists. reflexivity.
  - intros _. effects. apply write_test_quiet.
Qed.

Lemma effect_for_each_in {A} (R : world -> world -> Prop) (l : list A)
      (body : A -> script unit) :
  (forall w, R w w) ->
  (forall w1 w2 w3, R w1 w2 -> R w2 w3 -> R w1 w3) ->
  (forall x, In x l -> effect R (body x)) -> effect R (for_each l body).
Proof.
  intros Hrefl Htrans. induction l as [| x l IH]; cbn [for_each]; intros Hb.
  - apply effect_ret. exact Hrefl.
  - apply effect_bind; [exact Htrans | apply Hb; left; reflexivity | intros _].
    apply IH. intros y Hy. apply Hb. right. exact Hy.
Qed.

Lemma show_session_quiet inp plan exmap s :
  pressed inp (Anadir_serie (TrainingSession.id s)) = false ->
  effect same_data (show_session inp plan exmap s).
Proof.
  intros Hp. unfold show_session. rewrite Hp. effects. apply write_set_quiet.
Qed.

Lemma show_session_one_set inp plan exmap s :
  effect one_set_more (show_session inp plan exmap s).
Proof.
  unfold show_session.
  quiet_prefix one_set_more_refl one_set_more_after.
  apply (quiet_then _ one_set_more_refl one_set_more_after); [solve [effects] | intros _].
  quiet_prefix one_set_more_refl one_set_more_after.
  apply (then_quiet _ one_set_more_before).
  - apply effect_when; [apply one_set_more_refl |].
    apply (then_quiet _ one_set_more_before); [| intros; effects].
    intros w r w' H. inversion H; subst. right. eexists. reflexivity.
  - intros _. effects. apply write_set_quiet.
Qed.

Lemma for_each_show_session_one_set inp plan exmap sessions :
  NoDup (map TrainingSession.id sessions) ->
  effect one_set_more (for_each sessions (show_session inp plan exmap)).
Proof.
  induction sessions as [| s l IH]; cbn [for_each map]; intros Hnd.
  - apply effect_ret. apply one_set_more_refl.
  - inversion Hnd as [| ? ? Hs Hl]; subst.
    destruct (pressed inp (Anadir_serie (TrainingSession.id s))) eqn:Ep.
    + apply (then_quiet _ one_set_more_before); [apply show_session_one_set |].
      intros _. apply effect_for_each_in; [auto with rel | eauto with rel |].
      intros s' Hin. apply show_session_quiet.
      apply (pressed_other inp _ _ Ep). intros E. inversion E as [E'].
      apply Hs. rewrite E'. apply in_map, Hin.
    + apply (quiet_then _ one_set_more_refl one_set_more_after);
        [apply show_session_quiet, Ep | intros _; apply IH, Hl].
Qed.

Lemma bind_any {A B} (m : script A) (k : A -> script B) w r w' :
  bind m k w = (r, w') ->
  (exists a w1, m w = (inl a, w1) /\ k a w1 = (r, w'))
  \/ (exists h, m w = (inr h, w') /\ r = inr h).
Proof.
  unfold bind. destruct (m w) as [[a | h] w1]; intros H.
  - left. exists a, w1. auto.
  - right. inversion H; subst. exists h. auto.
Qed.

Lemma expect_any {A} e (o : option A) w r w' :
  expect e o w = (r, w') -> w' = w.
Proof. destruct o; cbn; intros H; inversion H; reflexivity. Qed.

(** The sessions page with "add session" not clicked. *)
Lemma page_sessions_one_set isoformat inp w r w' :
  pressed inp Anadir_sesion = false ->
  session_ids_unique (store w) ->
  page_sessions isoformat inp w = (r, w') ->
  one_set_more w w'.
Proof.
  intros Hp Huniq H. unfold page_sessions in H. rewrite Hp in H.
  cbv [bind st query when ret] in H. cbn [store session_state screen] in H.
  destruct (training_plans (store w)) as [| p0 plans] eqn:Eplans.
  - inversion H; subst. left. reflexivity.
  - rewrite <- Eplans in H.
    match type of H with
    | context [expect KeyError ?o] => destruct o as [pid |]
    end; cbn [expect ret raise] in H; [| inversion H; subst; left; reflexivity].
    match type of H with
    | context [expect AttributeError ?o] => destruct o as [plan |]
    end; cbn [expect ret raise] in H; [| inversion H; subst; left; reflexivity].
    cbn [store session_state screen] in H.
    pose proof (for_each_show_session_one_set inp plan _ _
                  (sessions_of_plan_ids_unique (store w) (TrainingPlan.id plan) Huniq)
                  _ _ _ H) as Hone.
    exact Hone.
Qed.

Lemma page_sessions_one_session isoformat inp :
  pressed inp Anadir_sesion = true ->
  effect one_session_more (page_sessions isoformat inp).
Proof.
  intros Hp. unfold page_sessions.
  quiet_prefix one_session_more_refl one_session_more_after;
    try (apply (quiet_is_fine _ one_session_more_refl one_session_more_after);
         solve [effects]).
  apply (then_quiet _ one_session_more_before).
  - apply effect_when; [apply one_session_more_refl |].
    apply (then_quiet _ one_session_more_before); [| intros; effects].
    intros w r w' H. inversion H; subst. right. eexists. reflexivity.
  - intros _. effects. apply show_session_quiet.
    apply (pressed_other inp _ _ Hp). discriminate.
Qed.

(** However a render of the tests or sessions page ends, finished or
    dead on an exception, the store is as it was before or has exactly
    one more row in exactly one table; no write is doubled or half
    done. *)
Theorem render_writes_at_most_one_row :
  (forall inp w r w',
      page_strength_tests inp w = (r, w') ->
      store w' = store w
      \/ exists t, store w' = with_strength_tests (store w)
                                (strength_tests (store w) ++ [t]))
  /\ (forall isoformat inp w r w',
        session_ids_unique (store w) ->
        page_sessions isoformat inp w = (r, w') ->
        store w' = store w
        \/ (exists s, store w' = with_training_sessions (store w)
                                   (training_sessions (store w) ++ [s]))
        \/ (exists sp, store w' = with_set_prescriptions (store w)
                                    (set_prescriptions (store w) ++ [sp]))).
Proof.
  split.
  - intros inp w r w' H. exact (page_strength_tests_one_test inp w r w' H).
  - intros isoformat inp w r w' Huniq H.
    destruct (pressed inp Anadir_sesion) eqn:Ep.
    + destruct (page_sessions_one_session isoformat inp Ep w r w' H) as [Hs | Hs];
        [left; exact Hs | right; left; exact Hs].
    + destruct (page_sessions_one_set isoformat inp w r w' Ep Huniq H) as [Hs | Hs];
        [left; exact Hs | right; right; exact Hs].
Qed.

Lemma render_writes_at_most_one_row_witness :
  session_ids_unique dangling_store
  /\ fst (page_sessions sample_isoformat
                        (sample_inputs (Some (Anadir_serie 1)) Sessions)
                        (mkWorld dangling_store (Some sample_coach) []))
     = inr (Raise AttributeError)
  /\ exists sp,
       store (snd (page_sessions sample_isoformat
                                 (sample_inputs (Some (Anadir_serie 1)) Sessions)
                                 (mkWorld dangling_store (Some sample_coach) [])))
       = with_set_prescriptions dangling_store
                                (set_prescriptions dangling_store ++ [sp]).
Proof.
  assert (Hu : session_ids_unique dangling_store).
  { repeat constructor. cbn. tauto. }
  split; [exact Hu |]. split; [vm_compute; reflexivity |].
  destruct (proj2 render_writes_at_most_one_row sample_isoformat
              (sample_inputs (Some (Anadir_serie 1)) Sessions)
              (mkWorld dangling_store (Some sample_coach) [])
              _ _ Hu (surjective_pairing _)) as [H | [(s & H) | H]].
  - apply (f_equal (fun d => List.length (set_prescriptions d))) in H.
    vm_compute in H. discriminate H.
  - apply (f_equal (fun d => List.length (set_prescriptions d))) in H.
    vm_compute in H. discriminate H.
  - exact H.
Defined.

(** *** Totals after adding a set *)

Lemma fsum_snoc l x : Py.fsum (l ++ [x]) = (Py.fsum l + x)%float.
Proof. unfold Py.fsum. rewrite fold_left_app. reflexivity. Qed.

(** Adding a set to a session raises the total of that session by the
    tonnage of the set, added last, and leaves the total of every other
    session as it was. *)
Theorem added_set_raises_its_session_total :
  forall db sid ex_id f sid',
    let db' := fst (insert_set_prescription db (new_set_prescription sid ex_id f)) in
    session_sum db' sid
    = (session_sum db sid
       + tonnage (Some (f_sets f)) (Some (f_reps f)) (Some (f_load f)))%float
    /\ (sid' <> sid -> session_sum db' sid' = session_sum db sid').
Proof.
  intros db sid ex_id f sid' db'. unfold db', session_sum, sets_of_session.
  cbn [insert_set_prescription fst set_prescriptions with_set_prescriptions].
  set (row := new_set_prescription sid ex_id f _).
  rewrite !filter_app. cbn [filter].
  assert (Hrow : SetPrescription.session_id row = Some sid) by reflexivity.
  split.
  - replace (col_eq (SetPrescription.session_id row) sid) with true
      by (symmetry; apply col_eq_true; exact Hrow).
    rewrite map_app. cbn [map]. rewrite fsum_snoc. reflexivity.
  - intros Hne.
    destruct (col_eq (SetPrescription.session_id row) sid') eqn:E.
    + apply col_eq_true in E. rewrite Hrow in E. congruence.
    + rewrite app_nil_r. reflexivity.
Qed.

Lemma added_set_raises_its_session_total_witness :
  session_sum (fst (insert_set_prescription sample_store
                      (new_set_prescription 1 1 sample_form))) 2
  = session_sum sample_store 2.
Proof.
  apply (added_set_raises_its_session_total sample_store 1 1 sample_form 2).
  discriminate.
Defined.

(** *** Nothing is written without a user *)

(** With no user in the session state after the sidebar (none at the
    start, or "Log out" clicked) a run changes nothing in a seeded
    store, whichever page is selected and whichever button is clicked,
    "Reset database" included. *)
Theorem no_user_no_write :
  forall isoformat inp w,
    users (store w) <> [] ->
    after_sidebar inp (session_state w) = None ->
    store (snd (app isoformat inp w)) = store w.
Proof.
  intros isoformat inp w Hu Hnone.
  destruct (sidebar_run inp w) as (w1 & Hside & Hst1 & Hs1).
  rewrite Hnone in Hs1.
  assert (Hpre : prologue inp w = gate inp w1).
  { unfold prologue.
    rewrite (bind_run _ _ _ _ _ (init_demo_data_skips (clock_start inp) w Hu)).
    exact (bind_run (sidebar inp) (fun _ => gate inp) w tt w1 Hside). }
  destruct (page_eqb (nav inp) Diagnostics) eqn:E.
  - apply page_eqb_eq in E.
    destruct (gate_run inp w1) as (w2 & Hst2 & Hg).
    rewrite Hs1, E in Hg. cbn in Hg. destruct Hg as [Hg _].
    unfold app. rewrite (bind_run _ _ _ _ _ (eq_trans Hpre Hg)).
    rewrite E. cbn [render]. rewrite page_diagnostics_run. cbn. congruence.
  - assert (Hnav : nav inp <> Diagnostics).
    { intros Heq. rewrite Heq in E. discriminate E. }
    destruct (gate_stop_run inp w1 Hs1 Hnav) as (w2 & Hg & Hst2 & _).
    unfold app. rewrite (bind_halt _ _ _ _ _ (eq_trans Hpre Hg)).
    cbn. congruence.
Qed.

Lemma no_user_no_write_witness :
  store (snd (app sample_isoformat (sample_inputs (Some Reset_database) Settings)
                  (mkWorld sample_store None [])))
  = sample_store.
Proof.
  apply (no_user_no_write sample_isoformat
           (sample_inputs (Some Reset_database) Settings)
           (mkWorld sample_store None [])).
  - discriminate.
  - reflexivity.
Defined.

(** *** The demo accounts *)

Lemma demo_accounts_seeded clk : demo_accounts (seeded clk).
Proof. reflexivity. Qed.

Lemma app_demo_accounts isoformat inp w :
  store w = empty_db \/ demo_accounts (store w) ->
  demo_accounts (store (snd (app isoformat inp w))).
Proof.
  intros Hinv.
  assert (Hinit : exists w0, init_demo_data (clock_start inp) w = (inl tt, w0)
                             /\ demo_accounts (store w0)).
  { destruct Hinv as [He | Hd].
    - destruct w as [db session scr]. cbn in He. subst db.
      rewrite init_demo_data_seeds. eexists. split; [reflexivity |].
      apply demo_accounts_seeded.
    - exists w. split; [| exact Hd]. apply init_demo_data_skips.
      intros E. unfold demo_accounts in Hd. rewrite E in Hd. discriminate Hd. }
  destruct Hinit as (w0 & Hinit & Hd0).
  destruct (sidebar_run inp w0) as (w1 & Hside & Hst1 & _).
  destruct (gate_run inp w1) as (w2 & Hst2 & Hg).
  assert (Hd2 : demo_accounts (store w2)) by (rewrite Hst2, Hst1; exact Hd0).
  assert (Hpre : prologue inp w = gate inp w1).
  { unfold prologue. rewrite (bind_run _ _ _ _ _ Hinit).
    exact (bind_run (sidebar inp) (fun _ => gate inp) w0 tt w1 Hside). }
  assert (Hrender : demo_accounts (store (snd (render isoformat (nav inp) inp w2)))).
  { destruct (pressed inp Reset_database) eqn:Ep.
    - destruct (nav inp) eqn:Enav.
      4: { change (demo_accounts (store (snd (page_settings inp w2)))).
           destruct (reset_leaves_demo_rows_block inp w2 Ep) as (w3 & H1 & H2).
           rewrite H1. cbn [snd]. rewrite H2. apply demo_accounts_seeded. }
      all: match goal with
           | |- context [render _ ?p _ _] =>
               assert (Hp : p = Settings -> pressed inp Reset_database = false)
                 by (intros E; discriminate E);
               destruct (render_keeps_catalog isoformat p inp Hp
                           w2 _ _ (surjective_pairing _)) as (_ & Husers & _)
           end;
        unfold demo_accounts; rewrite Husers; exact Hd2.
    - destruct (render_keeps_catalog isoformat (nav inp) inp (fun _ => Ep)
                  w2 _ _ (surjective_pairing _)) as (_ & Husers & _).
      unfold demo_accounts. rewrite Husers. exact Hd2. }
  unfold app.
  destruct (session_state w1) as [u |].
  - destruct Hg as [Hg _]. rewrite (bind_run _ _ _ _ _ (eq_trans Hpre Hg)).
    exact Hrender.
  - destruct (page_eqb (nav inp) Diagnostics).
    + destruct Hg as [Hg _]. rewrite (bind_run _ _ _ _ _ (eq_trans Hpre Hg)).
      exact Hrender.
    + rewrite (bind_halt _ _ _ _ _ (eq_trans Hpre Hg)). exact Hd2.
Qed.

(** In every world the browser can reach from a new database file, the
    users table is either still empty (nothing ran yet) or holds exactly
    the two demo accounts under ids 1 and 2; so the demo credentials of
    the coach always find the coach's row. *)
Theorem demo_accounts_are_the_users :
  forall isoformat w,
    reachable isoformat w ->
    (store w = empty_db \/ demo_accounts (store w))
    /\ (forall inp,
          users (store w) <> [] ->
          in_email inp = "coach@example.com" -> in_pwd inp = "demo" ->
          exists u, matching_user (store w) inp = Some u
                    /\ session_of u
                       = mkSessionUser 1 "Coach Demo" (Some "coach") "coach@example.com").
Proof.
  intros isoformat w Hreach.
  assert (Hinv : store w = empty_db \/ demo_accounts (store w)).
  { induction Hreach as [| w inp _ IH | w _ IH].
    - left. reflexivity.
    - right. unfold rerun. apply app_demo_accounts. exact IH.
    - exact IH. }
  split; [exact Hinv |].
  intros inp Hu He Hp.
  destruct Hinv as [Hempty | Hd]; [rewrite Hempty in Hu; contradiction |].
  unfold demo_accounts in Hd. unfold matching_user. rewrite He, Hp.
  destruct (users (store w)) as [| a [| b [| c l]]]; try discriminate Hd.
  destruct a as [ida emaila namea rolea hasha cra].
  destruct b as [idb emailb nameb roleb hashb crb].
  cbn [map User.id User.email User.name User.role User.hash] in Hd.
  inversion Hd. subst.
  eexists. split; reflexivity.
Qed.

Lemma demo_accounts_are_the_users_witness :
  demo_accounts (store (rerun sample_isoformat fresh (sample_inputs None Diagnostics))).
Proof.
  destruct (proj1 (demo_accounts_are_the_users sample_isoformat
                     (rerun sample_isoformat fresh (sample_inputs None Diagnostics))
                     (reach_rerun _ _ _ (reach_fresh _)))) as [H | H].
  - discriminate H.
  - exact H.
Defined.
